(** * Adaptive credit backend: the schedule and statistics engine of [app.py]

    The route [generate_schedule] of [src/app.py] turns the rows of an
    uploaded CSV file into a running-balance schedule and a handful of
    summary statistics.  This file embeds that route and settles the
    properties its specification states.

    Numbers.  Python and pandas compute with IEEE 754 binary64 values.  The
    engine is written once over a small interface of arithmetic operations
    ([Num]) and read at two instances: [binary64], the floating-point
    numbers of the Standard Library's [SpecFloat] at precision 53 and
    exponent bound 1024 (what the program runs on), and [rational], exact
    arithmetic on [Qc] with the IEEE special values (what an equality "up
    to rounding" is an equality of).

    Columns.  After the normalisation a numeric column is of dtype
    float64, or of dtype int64 when every cell of it is an integer
    numeral.  A table of binary64 numbers is what two float64 columns
    are; a table of exact integers is what two int64 columns are, as long
    as no intermediate result leaves the range of 64-bit integers.
    Properties that depend on the arithmetic of the columns are stated on
    such tables, at [binary64] or at [rational]; properties read through
    the cell text hold whatever the arithmetic is, or are stated in exact
    arithmetic.

    The conversion of a numeral.  What [pd.to_numeric] makes of a numeral
    of many digits depends on the version of the library.  [B64.decimal] is
    the conversion of short numerals; properties of the normalisation are
    stated for every conversion ([binary64_with]).

    Library functions.  [Series.sum], [mean], [pct_change], [idxmax] and
    [idxmin], the grammar of [pd.to_numeric] and the regular-expression
    replacement are embedded from their documented behaviour; the
    summation order is numpy's pairwise summation.  [Series.min], [max],
    [median] and [std] are not embedded: the numbers they give are kept
    apart ([other_numbers]) as values of the library.  [jsonify] is
    embedded as far as the route depends on it: which values it refuses.

    The request.  The checks on the request and the reading of the upload
    under the three encodings are embedded over a stream of bytes with a
    position; [bytes.decode] and [pd.read_csv] stay parameters there, each
    answering with its result or with the message of its exception. *)

From Stdlib Require Import ZArith List Bool Ascii String Lia.
From Stdlib Require Import QArith Qcanon.
From Stdlib Require Import Floats.SpecFloat.
Import ListNotations.

Set Implicit Arguments.

(** ** The numeric interface *)

Class Num (F : Type) : Type := {
  fzero : F;                      (* 0.0 *)
  fone : F;                       (* 1 *)
  fhundred : F;                   (* 100 *)
  fnan : F;                       (* np.nan *)
  fneginf : F;                    (* -np.inf *)
  fposinf : F;                    (* np.inf *)
  fadd : F -> F -> F;
  fsub : F -> F -> F;
  fmul : F -> F -> F;
  fdiv : F -> F -> F;             (* numpy true division: no exception *)
  fisnan : F -> bool;             (* pd.isna / np.isnan on a scalar *)
  fltb : F -> F -> bool;          (* x < y, False when either is NaN *)
  of_count : nat -> F;            (* an integer count read as a number *)
  of_decimal : bool -> N -> nat -> option F
    (* string-to-number conversion of the decimal numeral with the given
       sign, digits and number of fractional digits; None on failure *)
}.

(** ** binary64 *)

Module B64.

Definition prec : Z := 53.
Definition emax : Z := 1024.

Definition float : Type := spec_float.

Definition add : float -> float -> float := SFadd prec emax.
Definition sub : float -> float -> float := SFsub prec emax.
Definition mul : float -> float -> float := SFmul prec emax.
Definition div : float -> float -> float := SFdiv prec emax.

Definition of_Z (z : Z) : float := binary_normalize prec emax z 0 false.
Definition of_nat (n : nat) : float := of_Z (Z.of_nat n).

Definition zero : float := S754_zero false.
Definition one : float := Eval vm_compute in of_Z 1.
Definition hundred : float := Eval vm_compute in of_Z 100.

Definition is_nan (x : float) : bool :=
  match x with S754_nan => true | _ => false end.

Definition is_inf (x : float) : bool :=
  match x with S754_infinity _ => true | _ => false end.

Definition is_finite (x : float) : bool :=
  match x with S754_zero _ | S754_finite _ _ _ => true | _ => false end.

Definition is_zero (x : float) : bool :=
  match x with S754_zero _ => true | _ => false end.

Definition ltb : float -> float -> bool := SFltb.

(** The conversion of a short numeral: the value [(-1)^s * m / 10^k],
    the digits as an integer divided by the power of ten, which is rounded
    once as long as the digits stay below 2^53 and the power of ten below
    10^23.  What the library makes of longer numerals depends on its
    version; here a result out of the binary64 range is a conversion
    error. *)
Definition decimal (s : bool) (m : N) (k : nat) : option float :=
  let v := div (of_Z (Z.of_N m)) (of_Z (10 ^ Z.of_nat k)) in
  let v := if s then SFopp v else v in
  if is_finite v then Some v else None.

End B64.

#[export] Instance binary64 : Num B64.float := {
  fzero := B64.zero;
  fone := B64.one;
  fhundred := B64.hundred;
  fnan := S754_nan;
  fneginf := S754_infinity true;
  fposinf := S754_infinity false;
  fadd := B64.add;
  fsub := B64.sub;
  fmul := B64.mul;
  fdiv := B64.div;
  fisnan := B64.is_nan;
  fltb := B64.ltb;
  of_count := B64.of_nat;
  of_decimal := B64.decimal
}.

(** binary64 arithmetic with another string-to-number conversion.  What
    [pd.to_numeric] makes of a long numeral differs between versions of the
    library (digits beyond the seventeenth dropped, an overflow reported as
    an infinity or as a failure); properties that hold whatever the
    conversion gives are stated for every [conversion]. *)
Definition binary64_with (conversion : bool -> N -> nat -> option B64.float)
  : Num B64.float := {|
  fzero := B64.zero;
  fone := B64.one;
  fhundred := B64.hundred;
  fnan := S754_nan;
  fneginf := S754_infinity true;
  fposinf := S754_infinity false;
  fadd := B64.add;
  fsub := B64.sub;
  fmul := B64.mul;
  fdiv := B64.div;
  fisnan := B64.is_nan;
  fltb := B64.ltb;
  of_count := B64.of_nat;
  of_decimal := conversion
|}.

(** ** Exact arithmetic with the IEEE special values

    Rationals extended with a NaN and two infinities.  Finite values are
    added, subtracted, multiplied and divided exactly; the special values
    follow the IEEE rules ([x/0] is an infinity, [0/0] and [inf - inf] are
    NaN).  There is a single zero. *)

Module Exact.

Inductive xrat : Type :=
| NaN
| Inf (neg : bool)
| Fin (q : Qc).

Definition negative (q : Qc) : bool :=
  match (q ?= Q2Qc 0)%Qc with Lt => true | _ => false end.

Definition is_zero (q : Qc) : bool :=
  match (q ?= Q2Qc 0)%Qc with Eq => true | _ => false end.

Definition add (x y : xrat) : xrat :=
  match x, y with
  | NaN, _ | _, NaN => NaN
  | Inf s, Inf t => if Bool.eqb s t then x else NaN
  | Inf _, Fin _ => x
  | Fin _, Inf _ => y
  | Fin a, Fin b => Fin (a + b)%Qc
  end.

Definition opp (x : xrat) : xrat :=
  match x with
  | NaN => NaN
  | Inf s => Inf (negb s)
  | Fin a => Fin (- a)%Qc
  end.

Definition sub (x y : xrat) : xrat :=
  match x, y with
  | NaN, _ | _, NaN => NaN
  | Inf s, Inf t => if Bool.eqb s t then NaN else x
  | Inf _, Fin _ => x
  | Fin _, Inf t => Inf (negb t)
  | Fin a, Fin b => Fin (a - b)%Qc
  end.

Definition mul (x y : xrat) : xrat :=
  match x, y with
  | NaN, _ | _, NaN => NaN
  | Inf s, Inf t => Inf (xorb s t)
  | Inf s, Fin b => if is_zero b then NaN else Inf (xorb s (negative b))
  | Fin a, Inf t => if is_zero a then NaN else Inf (xorb (negative a) t)
  | Fin a, Fin b => Fin (a * b)%Qc
  end.

Definition div (x y : xrat) : xrat :=
  match x, y with
  | NaN, _ | _, NaN => NaN
  | Inf _, Inf _ => NaN
  | Inf s, Fin b => Inf (xorb s (negative b))
  | Fin _, Inf _ => Fin (Q2Qc 0)
  | Fin a, Fin b =>
      if is_zero b
      then (if is_zero a then NaN else Inf (negative a))
      else Fin (a / b)%Qc
  end.

Definition is_nan (x : xrat) : bool :=
  match x with NaN => true | _ => false end.

Definition is_finite (x : xrat) : bool :=
  match x with Fin _ => true | _ => false end.

Definition ltb (x y : xrat) : bool :=
  match x, y with
  | NaN, _ | _, NaN => false
  | Inf s, Inf t => s && negb t
  | Inf s, Fin _ => s
  | Fin _, Inf t => negb t
  | Fin a, Fin b => match (a ?= b)%Qc with Lt => true | _ => false end
  end.

Definition of_Z (z : Z) : xrat := Fin (Q2Qc (inject_Z z)).

Definition decimal (s : bool) (m : N) (k : nat) : option xrat :=
  let v := (Q2Qc (inject_Z (Z.of_N m)) / Q2Qc (inject_Z (10 ^ Z.of_nat k)))%Qc in
  Some (Fin (if s then (- v)%Qc else v)).

(** The rational a finite value stands for, and the plain sum of a list of
    rationals. *)
Definition value (x : xrat) : Qc :=
  match x with
  | Fin q => q
  | _ => Q2Qc 0
  end.

Definition qsum (l : list Qc) : Qc := fold_right Qcplus (Q2Qc 0) l.

End Exact.

#[export] Instance rational : Num Exact.xrat := {
  fzero := Exact.of_Z 0;
  fone := Exact.of_Z 1;
  fhundred := Exact.of_Z 100;
  fnan := Exact.NaN;
  fneginf := Exact.Inf true;
  fposinf := Exact.Inf false;
  fadd := Exact.add;
  fsub := Exact.sub;
  fmul := Exact.mul;
  fdiv := Exact.div;
  fisnan := Exact.is_nan;
  fltb := Exact.ltb;
  of_count := fun n => Exact.of_Z (Z.of_nat n);
  of_decimal := Exact.decimal
}.


(** ** Cell text and the parsed file

    [pd.read_csv] yields a header and rows of cells.  A cell is modelled by
    the text [astype(str)] gives for it, over the ASCII range. *)

Record CsvFrame : Type := {
  columns : list string;
  rows : list (list string)
}.

(** [row[name]]: the cell under the column called [name]; a row shorter
    than the header has missing cells, which print as [nan]. *)
Fixpoint cell (cols : list string) (cells : list string) (name : string) : string :=
  match cols, cells with
  | c :: cs, v :: vs => if String.eqb c name then v else cell cs vs name
  | _, _ => "nan"%string
  end.

Definition is_digit (c : ascii) : bool :=
  let n := nat_of_ascii c in (48 <=? n)%nat && (n <=? 57)%nat.

(** The characters the pattern [[^\d.-]] leaves in place. *)
Definition numeric_char (c : ascii) : bool :=
  is_digit c || Ascii.eqb c "."%char || Ascii.eqb c "-"%char.

(** [.str.replace(r'[^\d.-]', '', regex=True)] on one cell. *)
Fixpoint str_replace (s : string) : string :=
  match s with
  | EmptyString => EmptyString
  | String c t => if numeric_char c then String c (str_replace t) else str_replace t
  end.

Definition digit_value (c : ascii) : N := N.of_nat (nat_of_ascii c - 48).

(** Reads a run of digits, continuing the numeral [acc] of [cnt] digits. *)
Fixpoint read_digits (s : string) (acc : N) (cnt : nat) : N * nat * string :=
  match s with
  | String c t =>
      if is_digit c then read_digits t (10 * acc + digit_value c)%N (S cnt)
      else (acc, cnt, s)
  | EmptyString => (acc, cnt, s)
  end.

(** [", ".join(names)] *)
Fixpoint join (sep : string) (names : list string) : string :=
  match names with
  | [] => EmptyString
  | [x] => x
  | x :: rest => (x ++ sep ++ join sep rest)%string
  end.

Definition required_columns : list string :=
  ["Month"; "Date"; "Total Income"; "Fixed Expenses"]%string.

(** [[col for col in required_columns if col not in df.columns]] *)
Definition missing_columns (df : CsvFrame) : list string :=
  filter (fun col => negb (existsb (String.eqb col) (columns df))) required_columns.

(** ** The engine *)

Section Engine.

Context {F : Type} {N : Num F}.

Definition pd_isna (value : F) : bool := fisnan value.
Definition np_isnan (value : F) : bool := fisnan value.

(** [format_float]: the value is a number here, so the [except] branch of
    the source (which also answers [0.0]) is never taken. *)
Definition format_float (value : F) : F :=
  if pd_isna value || np_isnan value then fzero else value.

(** *** Numeric normalisation of a cell *)

(** String-to-number conversion as [pd.to_numeric] performs it on text made
    of digits, points and minus signs: an optional minus sign, digits, an
    optional point followed by digits, at least one digit in all, and
    nothing after. *)
Definition to_double (s : string) : option F :=
  let '(neg, s1) :=
    match s with
    | String c t => if Ascii.eqb c "-"%char then (true, t) else (false, s)
    | EmptyString => (false, s)
    end in
  let '(ip, ni, s2) := read_digits s1 0%N 0%nat in
  let '(m, nd, s3) :=
    match s2 with
    | String c t => if Ascii.eqb c "."%char then read_digits t ip ni else (ip, ni, s2)
    | EmptyString => (ip, ni, s2)
    end in
  match nd, s3 with
  | O, _ => None
  | _, EmptyString => of_decimal neg m (nd - ni)
  | _, String _ _ => None
  end.

(** [pd.to_numeric(..., errors='coerce')] on one cell. *)
Definition to_numeric (s : string) : F :=
  match to_double s with
  | Some v => v
  | None => fnan
  end.

(** [.fillna(0)] on one cell. *)
Definition fillna (fill v : F) : F := if fisnan v then fill else v.

(** Lines 138-143 of [app.py] on one cell, as a number of the arithmetic
    [F].  (In a column whose cells are all integer numerals the code keeps
    the integers; the number is the same as long as [F] holds it.) *)
Definition normalize_cell (s : string) : F :=
  fillna fzero (to_numeric (str_replace s)).

(** *** The table after normalisation *)

Record Row : Type := {
  Month : string;
  Date : string;
  Total_Income : F;
  Fixed_Expenses : F
}.

Definition normalize_row (cols : list string) (cells : list string) : Row :=
  {| Month := cell cols cells "Month";
     Date := cell cols cells "Date";
     Total_Income := normalize_cell (cell cols cells "Total Income");
     Fixed_Expenses := normalize_cell (cell cols cells "Fixed Expenses") |}.

(** [df['Available Money']] and [df['Savings Rate']] (lines 153-154), in
    the arithmetic of the columns. *)
Definition Available_Money (row : Row) : F :=
  fsub (Total_Income row) (Fixed_Expenses row).

Definition Savings_Rate (row : Row) : F :=
  fmul (fdiv (Available_Money row) (Total_Income row)) fhundred.

(** *** Reductions of a column *)

(** Eight running sums, as in numpy's unrolled summation loop. *)
Definition acc8 : Type := (F * F * F * F * F * F * F * F)%type.

Fixpoint unrolled (r : acc8) (a : list F) : acc8 * list F :=
  match a with
  | a0 :: a1 :: a2 :: a3 :: a4 :: a5 :: a6 :: a7 :: rest =>
      let '(r0, r1, r2, r3, r4, r5, r6, r7) := r in
      unrolled (fadd r0 a0, fadd r1 a1, fadd r2 a2, fadd r3 a3,
                fadd r4 a4, fadd r5 a5, fadd r6 a6, fadd r7 a7) rest
  | _ => (r, a)
  end.

Definition collapse (r : acc8) : F :=
  let '(r0, r1, r2, r3, r4, r5, r6, r7) := r in
  fadd (fadd (fadd r0 r1) (fadd r2 r3)) (fadd (fadd r4 r5) (fadd r6 r7)).


(** A block of at most 128 numbers: fewer than eight are added from left
    to right starting at zero; otherwise the first eight seed the running
    sums, whole groups of eight are added to them, the sums are collapsed
    and the remaining numbers added one by one. *)
Definition block_sum (a : list F) : F :=
  match a with
  | a0 :: a1 :: a2 :: a3 :: a4 :: a5 :: a6 :: a7 :: rest =>
      let '(r, tail) := unrolled (a0, a1, a2, a3, a4, a5, a6, a7) rest in
      fold_left fadd tail (collapse r)
  | _ => fold_left fadd a fzero
  end.

(** numpy's pairwise summation: longer inputs are split in two, the first
    part a multiple of eight long. *)
Fixpoint pairwise_sum (fuel : nat) (a : list F) : F :=
  match fuel with
  | O => block_sum a
  | S fuel' =>
      let n := List.length a in
      if (n <=? 128)%nat then block_sum a
      else
        let n2 := (n / 2 - (n / 2) mod 8)%nat in
        fadd (pairwise_sum fuel' (firstn n2 a)) (pairwise_sum fuel' (skipn n2 a))
  end.

(** [values.sum()] on a float array. *)
Definition np_sum (a : list F) : F := pairwise_sum (List.length a) a.

(** [Series.sum()]: missing values count as zero. *)
Definition series_sum (s : list F) : F := np_sum (map (fillna fzero) s).

(** [Series.count()]: the number of values that are not missing. *)
Definition series_count (s : list F) : nat :=
  List.length (filter (fun v => negb (fisnan v)) s).

(** [Series.mean()]: the sum over the count, NaN when nothing is counted. *)
Definition series_mean (s : list F) : F :=
  let count := series_count s in
  if (0 <? count)%nat then fdiv (series_sum s) (of_count count) else fnan.

(** [Series.pct_change()]: [s / s.shift(1) - 1]; the first entry has no
    predecessor.  The columns it is applied to hold no missing value. *)
Fixpoint pct_change_from (prev : F) (s : list F) : list F :=
  match s with
  | [] => []
  | x :: rest => fsub (fdiv x prev) fone :: pct_change_from x rest
  end.

Definition pct_change (s : list F) : list F :=
  match s with
  | [] => []
  | x :: rest => fnan :: pct_change_from x rest
  end.

(** [ndarray.argmax()] and [argmin()]: the first position of an extreme
    value. *)
Fixpoint argmax_from (mp : F) (idx i : nat) (a : list F) : nat :=
  match a with
  | [] => idx
  | x :: rest =>
      if fltb mp x then argmax_from x i (S i) rest
      else argmax_from mp idx (S i) rest
  end.

Fixpoint argmin_from (mp : F) (idx i : nat) (a : list F) : nat :=
  match a with
  | [] => idx
  | x :: rest =>
      if fltb x mp then argmin_from x i (S i) rest
      else argmin_from mp idx (S i) rest
  end.

(** [Series.idxmax()] and [idxmin()] under the default integer index:
    missing values are replaced by the opposite infinity before the search;
    [None] stands for the failure on a column with no value at all. *)
Definition idxmax (s : list F) : option nat :=
  if forallb fisnan s then None
  else
    match map (fillna fneginf) s with
    | [] => None
    | x :: rest => Some (argmax_from x 0 1 rest)
    end.

Definition idxmin (s : list F) : option nat :=
  if forallb fisnan s then None
  else
    match map (fillna fposinf) s with
    | [] => None
    | x :: rest => Some (argmin_from x 0 1 rest)
    end.

(** [.iloc[0]] and [.iloc[-1]]; [None] is the [IndexError] on an empty
    column. *)
Definition iloc_first {A : Type} (s : list A) : option A := hd_error s.

Fixpoint iloc_last {A : Type} (s : list A) : option A :=
  match s with
  | [] => None
  | [x] => Some x
  | _ :: rest => iloc_last rest
  end.

(** *** [calculate_trends] *)

Record Trends : Type := {
  income_trend : F;
  expense_trend : F;
  trends_savings_rate : F
}.

Definition trend_rate (s : list F) : F :=
  format_float (fmul (series_mean (pct_change s)) fhundred).

Definition calculate_trends (df : list Row) : Trends :=
  {| income_trend := trend_rate (map Total_Income df);
     expense_trend := trend_rate (map Fixed_Expenses df);
     trends_savings_rate :=
       format_float
         (fmul (fdiv (series_sum (map Available_Money df))
                     (series_sum (map Total_Income df))) fhundred) |}.

(** *** [calculate_monthly_stats]

    The records hold the statistics that are embedded.  The medians and
    the standard deviations of the source are values of the library; they
    are kept apart, in [other_numbers]. *)

Record SeriesStats : Type := {
  mean : F;
  growth : F
}.

Record SavingsStats : Type := {
  savings_mean : F;
  best_month : string;
  worst_month : string
}.

Record MonthlyStats : Type := {
  income_stats : SeriesStats;
  expense_stats : SeriesStats;
  savings_stats : SavingsStats
}.

(** [((s.iloc[-1] / s.iloc[0]) - 1) * 100] *)
Definition growth_of (s : list F) : option F :=
  match iloc_last s, iloc_first s with
  | Some last, Some first =>
      Some (format_float (fmul (fsub (fdiv last first) fone) fhundred))
  | _, _ => None
  end.

Definition series_stats (s : list F) : option SeriesStats :=
  match growth_of s with
  | Some g => Some {| mean := format_float (series_mean s); growth := g |}
  | None => None
  end.

(** [df.loc[i, 'Month']] *)
Definition month_at (df : list Row) (i : nat) : option string :=
  nth_error (map Month df) i.

Definition calculate_monthly_stats (df : list Row) : option MonthlyStats :=
  match series_stats (map Total_Income df),
        series_stats (map Fixed_Expenses df),
        idxmax (map Available_Money df),
        idxmin (map Available_Money df) with
  | Some i_stats, Some e_stats, Some imax, Some imin =>
      match month_at df imax, month_at df imin with
      | Some best, Some worst =>
          Some {| income_stats := i_stats;
                  expense_stats := e_stats;
                  savings_stats :=
                    {| savings_mean := format_float (series_mean (map Available_Money df));
                       best_month := best;
                       worst_month := worst |} |}
      | _, _ => None
      end
  | _, _, _, _ => None
  end.

(** *** The schedule rows and the metrics *)

Record ScheduleRow : Type := {
  date : string;
  payment : F;
  remaining_balance : F;
  savings_rate : F
}.

(** The loop of lines 161-172, [accumulated_balance] being its state. *)
Fixpoint schedule_loop (accumulated_balance : F) (df : list Row) : list ScheduleRow :=
  match df with
  | [] => []
  | row :: rest =>
      let available_money := format_float (Available_Money row) in
      let accumulated_balance := fadd accumulated_balance available_money in
      {| date := Date row;
         payment := available_money;
         remaining_balance := format_float accumulated_balance;
         savings_rate := format_float (Savings_Rate row) |}
      :: schedule_loop accumulated_balance rest
  end.

(** The minimum and maximum payments of the source are left out. *)
Record Metrics : Type := {
  total_amount : F;
  average_payment : F;
  completion_date : string;
  total_months : nat;
  total_income : F;
  total_expenses : F;
  average_savings_rate : F;
  trends : Trends;
  monthly_stats : MonthlyStats
}.

Record Schedule : Type := {
  metrics : Metrics;
  data : list ScheduleRow
}.

(** What the route answers: the schedule, or an error with its status. *)
Inductive Response : Type :=
| Ok (schedule : Schedule)
| Error (status : nat) (error : string).

(** Lines 152-203 on the normalised table: the dictionary handed to
    [jsonify].  [None] is an exception raised on the way, which the route
    turns into a status 500 answer. *)
Definition build_schedule (df : list Row) : option Schedule :=
  let total_available := format_float (series_sum (map Available_Money df)) in
  let schedule_data := schedule_loop fzero df in
  let trends := calculate_trends df in
  match calculate_monthly_stats df, iloc_last (map Date df) with
  | Some monthly_stats, Some completion =>
      Some {| metrics :=
                {| total_amount := total_available;
                   average_payment := format_float (series_mean (map Available_Money df));
                   completion_date := completion;
                   total_months := List.length df;
                   total_income := format_float (series_sum (map Total_Income df));
                   total_expenses := format_float (series_sum (map Fixed_Expenses df));
                   average_savings_rate := format_float (series_mean (map Savings_Rate df));
                   trends := trends;
                   monthly_stats := monthly_stats |};
              data := schedule_data |}
  | _, _ => None
  end.

(** [generate_schedule] from the parsed file to the dictionary handed to
    [jsonify]; what is sent is [jsonify] of this answer. *)
Definition generate_schedule (df : CsvFrame) : Response :=
  match missing_columns df with
  | [] =>
      match build_schedule (map (normalize_row (columns df)) (rows df)) with
      | Some schedule => Ok schedule
      | None => Error 500 "Internal server error"
      end
  | missing =>
      Error 400 ("Missing required columns: " ++ join ", " missing)
  end.

End Engine.

Arguments Row F : clear implicits.
Arguments ScheduleRow F : clear implicits.
Arguments Trends F : clear implicits.
Arguments SeriesStats F : clear implicits.
Arguments SavingsStats F : clear implicits.
Arguments MonthlyStats F : clear implicits.
Arguments Metrics F : clear implicits.
Arguments Schedule F : clear implicits.
Arguments Response F : clear implicits.

(** ** Sending the answer

    [jsonify(schedule)] (line 204) encodes text, Python numbers and
    [np.float64] values, and raises [TypeError] on a numpy integer or
    boolean; the handler of lines 206-213 turns that into status 500.  The
    values at stake are those read from the Month and Date columns with
    [.iloc] and [.loc] ([completion_date], [best_month], [worst_month]):
    they are numpy scalars when [pd.read_csv] has made the column one of
    integers or booleans. *)




(** ** The normalisation as the specification words it

    "Strip every character that is not a digit, decimal point, or leading
    minus sign": a minus sign is kept only when nothing has been kept
    before it. *)

Fixpoint spec_strip_from (leading : bool) (s : string) : string :=
  match s with
  | EmptyString => EmptyString
  | String c t =>
      if is_digit c || Ascii.eqb c "."%char
      then String c (spec_strip_from false t)
      else if Ascii.eqb c "-"%char && leading
      then String c (spec_strip_from false t)
      else spec_strip_from leading t
  end.

Definition spec_strip (s : string) : string := spec_strip_from true s.

Definition spec_normalize_cell {F : Type} {N : Num F} (s : string) : F :=
  fillna fzero (to_numeric (spec_strip s)).

(** ** Decimal numerals

    The text of a numeral, from its sign, the digits before the point and,
    when there is a point, the digits after it; and the value of a run of
    digits read after the numeral [acc]. *)

Definition digit_char (d : nat) : ascii := ascii_of_nat (48 + d).

Definition digits_text (ds : list nat) : string :=
  string_of_list_ascii (map digit_char ds).

Fixpoint digits_value (acc : N) (ds : list nat) : N :=
  match ds with
  | [] => acc
  | d :: rest => digits_value (10 * acc + N.of_nat d)%N rest
  end.

Definition fraction_digits (frac : option (list nat)) : list nat :=
  match frac with
  | Some fp => fp
  | None => []
  end.

Definition numeral_text (neg : bool) (ip : list nat) (frac : option (list nat)) : string :=
  ((if neg then "-" else "")
   ++ digits_text ip
   ++ match frac with
      | Some fp => String "."%char (digits_text fp)
      | None => EmptyString
      end)%string.

(** The numerals: digits below ten, at least one of them. *)
Definition numeral (ip : list nat) (frac : option (list nat)) : Prop :=
  Forall (fun d => (d < 10)%nat) ip /\
  Forall (fun d => (d < 10)%nat) (fraction_digits frac) /\
  ip ++ fraction_digits frac <> [].

(** The text left after a run of digits: empty, or starting with a
    character that is no digit. *)
Definition stops (rest : string) : Prop :=
  match rest with
  | EmptyString => True
  | String c _ => is_digit c = false
  end.

(** ** The uploaded file

    Lines 80-122 of [app.py]: the checks on the request and the reading of
    the upload under each encoding in turn.  The upload is a stream of bytes
    with a position.  [bytes.decode] and [pd.read_csv] are the libraries':
    each gives its result, or the message of the exception it raises. *)

Inductive Encoding : Type := utf_8 | utf_8_sig | cp1251.

Definition encodings : list Encoding := [utf_8; utf_8_sig; cp1251].

Record FileStorage : Type := {
  filename : string;
  content : list Byte.byte;
  position : nat
}.

(** [file.read()]: the bytes from the position on; the position moves to
    the end. *)
Definition read (file : FileStorage) : list Byte.byte * FileStorage :=
  (skipn (position file) (content file),
   {| filename := filename file;
      content := content file;
      position := Nat.max (position file) (List.length (content file)) |}).

(** [file.seek(offset)] *)
Definition seek (file : FileStorage) (offset : nat) : FileStorage :=
  {| filename := filename file; content := content file; position := offset |}.

(** [s.endswith(suffix)] *)
Definition endswith (s suffix : string) : bool :=
  let n := String.length s in
  let m := String.length suffix in
  (m <=? n)%nat && String.eqb (substring (n - m) m s) suffix.

(** [request.files.get(key)]: the first upload sent under [key]. *)
Fixpoint files_get (files : list (string * FileStorage)) (key : string)
  : option FileStorage :=
  match files with
  | [] => None
  | (k, file) :: rest => if String.eqb k key then Some file else files_get rest key
  end.

Section Upload.

Context {F : Type} {N : Num F}.

Variable Text : Type.
Variable decode : Encoding -> list Byte.byte -> Text + string.
Variable read_csv : Text -> CsvFrame + string.

(** The loop of lines 101-113 over the encodings still to try: [df] when an
    attempt succeeded, and [last_error]. *)
Fixpoint read_with_encodings (todo : list Encoding) (file : FileStorage)
         (last_error : option string) : option CsvFrame * option string :=
  match todo with
  | [] => (None, last_error)
  | encoding :: todo =>
      let '(bytes, file) := read file in
      match decode encoding bytes with
      | inr e => read_with_encodings todo file (Some e)
      | inl file_content =>
          let file := seek file 0 in
          match read_csv file_content with
          | inl df => (Some df, last_error)
          | inr e => read_with_encodings todo file (Some e)
          end
      end
  end.

(** [str(last_error)] *)
Definition str_error (last_error : option string) : string :=
  match last_error with
  | Some e => e
  | None => "None"
  end.

(** The route from the request on. *)
Definition generate_schedule_request (files : list (string * FileStorage)) : Response F :=
  match files_get files "file" with
  | None => Error 400 "No file provided"
  | Some file =>
      if String.eqb (filename file) "" then Error 400 "No file selected"
      else if negb (endswith (filename file) ".csv") then Error 400 "File must be a CSV"
      else
        match read_with_encodings encodings file None with
        | (Some df, _) => generate_schedule df
        | (None, last_error) =>
            Error 400 ("Error reading CSV file: "
                       ++ "Failed to read CSV with any encoding. Last error: "
                       ++ str_error last_error)
        end
  end.

End Upload.

(** An upload as the request delivers it: positioned at its start. *)
Definition fresh (files : list (string * FileStorage)) : Prop :=
  forall file, files_get files "file" = Some file -> position file = 0%nat.

(** A reader that raises on text decoded from no bytes, as [pd.read_csv]
    does on an empty file. *)
Definition rejects_empty {Text : Type}
           (decode : Encoding -> list Byte.byte -> Text + string)
           (read_csv : Text -> CsvFrame + string) : Prop :=
  forall encoding text,
    decode encoding [] = inl text -> exists e, read_csv text = inr e.

(** Stand-ins for the two library functions on sample uploads: bytes taken
    as they are, and a reader that finds the four columns and one row in
    any text that is not empty. *)
Definition sample_decode (encoding : Encoding) (bytes : list Byte.byte)
  : list Byte.byte + string :=
  match encoding, bytes with
  | utf_8, Byte.xff :: _ => inr "invalid start byte"%string
  | _, _ => inl bytes
  end.

Definition sample_read_csv (text : list Byte.byte) : CsvFrame + string :=
  match text with
  | [] => inr "No columns to parse from file"%string
  | _ => inl {| columns := required_columns;
                rows := [["January"; "2023-01-01"; "1000"; "400"]%string] |}
  end.

Definition sample_upload : FileStorage :=
  {| filename := "income.csv"; content := [Byte.xff; Byte.x31]; position := 0 |}.

(** ** Every number a schedule reports *)

Definition row_numbers {F : Type} (r : ScheduleRow F) : list F :=
  [payment r; remaining_balance r; savings_rate r].

Definition numbers {F : Type} (s : Schedule F) : list F :=
  let m := metrics s in
  let t := trends m in
  let st := monthly_stats m in
  [total_amount m; average_payment m; total_income m; total_expenses m;
   average_savings_rate m;
   income_trend t; expense_trend t; trends_savings_rate t;
   mean (income_stats st); growth (income_stats st);
   mean (expense_stats st); growth (expense_stats st);
   savings_mean (savings_stats st)]
  ++ flat_map row_numbers (data s).

(** A number that has gone through [format_float]. *)
Definition guarded {F : Type} {N : Num F} (v : F) : Prop :=
  exists raw, v = format_float raw.

(** The numbers of the response that the records leave out: [min_payment]
    and [max_payment] (lines 182-183), the medians and the standard
    deviations (lines 51-52, 57-58, 63-64).  [Series.min], [max], [median]
    and [std] are the library's and are not embedded; whatever they give is
    reported through [format_float]. *)
Section LibraryStatistics.

Context {F : Type} {N : Num F}.

Variables series_min series_max series_median series_std : list F -> F.

Definition other_numbers (df : list (Row F)) : list F :=
  [format_float (series_min (map Available_Money df));
   format_float (series_max (map Available_Money df));
   format_float (series_median (map Total_Income df));
   format_float (series_std (map Total_Income df));
   format_float (series_median (map Fixed_Expenses df));
   format_float (series_std (map Fixed_Expenses df));
   format_float (series_median (map Available_Money df));
   format_float (series_std (map Available_Money df))].

End LibraryStatistics.

(** ** Tables of finite numbers *)

Definition exact_row (row : Row Exact.xrat) : Prop :=
  Exact.is_finite (Total_Income row) = true /\
  Exact.is_finite (Fixed_Expenses row) = true.

(** ** Tables that two kinds of column share

    A number is moderate when it is finite and of magnitude at most 2^52:
    the difference of two moderate integers is computed without rounding in
    binary64, so that columns of 64-bit integers and columns of binary64
    numbers holding them give the same results.  An exact table is one of
    64-bit integers when its values are integers below 2^62 in magnitude:
    no difference of two of them leaves the range of 64-bit integers. *)

Definition two52 : B64.float := Eval vm_compute in B64.of_Z (2 ^ 52).

Definition moderate (v : B64.float) : bool :=
  B64.is_finite v && negb (B64.ltb two52 (SFabs v)).

Definition moderate_row (row : Row B64.float) : Prop :=
  moderate (Total_Income row) = true /\ moderate (Fixed_Expenses row) = true.

Definition int64_value (x : Exact.xrat) : Prop :=
  exists z : Z, x = Exact.of_Z z /\ (Z.abs z < 2 ^ 62)%Z.

Definition int64_row (row : Row Exact.xrat) : Prop :=
  int64_value (Total_Income row) /\ int64_value (Fixed_Expenses row).

(** Income less expenses of a row of exact numbers, as a rational. *)
Definition available (row : Row Exact.xrat) : Qc :=
  (Exact.value (Total_Income row) - Exact.value (Fixed_Expenses row))%Qc.

(** ** Sample inputs *)

Definition header : list string :=
  ["Month"; "Date"; "Total Income"; "Fixed Expenses"]%string.

(** The three months of the specification's worked example. *)
Definition quarter : CsvFrame :=
  {| columns := header;
     rows := [ ["Jan"; "2023-01-01"; "1000"; "600"];
               ["Feb"; "2023-02-01"; "$1,200.00"; "600"];
               ["Mar"; "2023-03-01"; "900"; "600"] ]%string |}.

(** A file without the expenses column. *)
Definition no_expenses : CsvFrame :=
  {| columns := ["Month"; "Date"; "Total Income"]%string;
     rows := [ ["Jan"; "2023-01-01"; "1000"] ]%string |}.

(** A file with the two label columns only, and a file with none of the
    required columns. *)
Definition labels_only : CsvFrame :=
  {| columns := ["Month"; "Date"]%string;
     rows := [ ["Jan"; "2023-01-01"] ]%string |}.

Definition notes_only : CsvFrame :=
  {| columns := ["Notes"]%string;
     rows := [ ["rent"] ]%string |}.

(** Ten months: an income of 10^16, eight incomes of 1, and a last month
    whose expenses are 10^16. *)
Definition ten_months : CsvFrame :=
  {| columns := header;
     rows := [ ["Jan"; "2023-01-01"; "10000000000000000"; "0"];
               ["Feb"; "2023-02-01"; "1"; "0"];
               ["Mar"; "2023-03-01"; "1"; "0"];
               ["Apr"; "2023-04-01"; "1"; "0"];
               ["May"; "2023-05-01"; "1"; "0"];
               ["Jun"; "2023-06-01"; "1"; "0"];
               ["Jul"; "2023-07-01"; "1"; "0"];
               ["Aug"; "2023-08-01"; "1"; "0"];
               ["Sep"; "2023-09-01"; "1"; "0"];
               ["Oct"; "2023-10-01"; "0"; "10000000000000000"] ]%string |}.

(** Two months whose incomes and expenses are 2^53 and 1, crossed. *)
Definition crossed : CsvFrame :=
  {| columns := header;
     rows := [ ["Jan"; "2023-01-01"; "9007199254740992"; "0"];
               ["Feb"; "2023-02-01"; "1"; "9007199254740992"] ]%string |}.

(** One month without income but with expenses. *)
Definition no_income : CsvFrame :=
  {| columns := header;
     rows := [ ["Jan"; "2023-01-01"; "0"; "500"] ]%string |}.

(** An idle month followed by a month with income. *)
Definition late_start : CsvFrame :=
  {| columns := header;
     rows := [ ["Jan"; "2023-01-01"; "0"; "0"];
               ["Feb"; "2023-02-01"; "5"; "0"] ]%string |}.

(** Two months with neither income nor expenses. *)
Definition idle : CsvFrame :=
  {| columns := header;
     rows := [ ["Jan"; "2023-01-01"; "0"; "0"];
               ["Feb"; "2023-02-01"; "0"; "0"] ]%string |}.

(** The largest finite number, and three months whose payments are plus
    infinity, minus infinity and one. *)
Definition max_float : B64.float := S754_finite false 9007199254740991 971.

Definition overflowing : list (Row B64.float) :=
  [ {| Month := "Jan"; Date := "2023-01-01";
       Total_Income := max_float; Fixed_Expenses := SFopp max_float |};
    {| Month := "Feb"; Date := "2023-02-01";
       Total_Income := SFopp max_float; Fixed_Expenses := max_float |};
    {| Month := "Mar"; Date := "2023-03-01";
       Total_Income := B64.one; Fixed_Expenses := B64.zero |} ]%string.


(** A single month, and three months with the same available money. *)
Definition one_month : CsvFrame :=
  {| columns := header;
     rows := [ ["Jan"; "2023-01-01"; "1000"; "600"] ]%string |}.

Definition level : CsvFrame :=
  {| columns := header;
     rows := [ ["Jan"; "2023-01-01"; "1000"; "600"];
               ["Feb"; "2023-02-01"; "900"; "500"];
               ["Mar"; "2023-03-01"; "400"; "0"] ]%string |}.

(** The worked example with its columns in another order and a column of
    notes added. *)
Definition quarter_shuffled : CsvFrame :=
  {| columns := ["Notes"; "Fixed Expenses"; "Date"; "Month"; "Total Income"]%string;
     rows := [ ["rent"; "600"; "2023-01-01"; "Jan"; "1000"];
               ["rent"; "600"; "2023-02-01"; "Feb"; "$1,200.00"];
               ["rent, car"; "600"; "2023-03-01"; "Mar"; "900"] ]%string |}.

(** The tolerance 1e-9 and the distance between two numbers. *)
Definition tolerance : B64.float :=
  Eval vm_compute in B64.div (B64.of_Z 1) (B64.of_Z (10 ^ 9)).

Definition distance (x y : B64.float) : B64.float := SFabs (B64.sub x y).

(** * Properties *)

Unset Implicit Arguments.

(** ** The guard *)

Section Guard.

Context {F : Type} {N : Num F}.

Lemma format_float_nan (v : F) : fisnan v = true -> format_float v = fzero.
Proof.
  intros H. unfold format_float, pd_isna, np_isnan. now rewrite H.
Qed.

Lemma format_float_id (v : F) : fisnan v = false -> format_float v = v.
Proof.
  intros H. unfold format_float, pd_isna, np_isnan. now rewrite H.
Qed.

Lemma format_float_fillna (v : F) : format_float v = fillna fzero v.
Proof.
  unfold format_float, fillna, pd_isna, np_isnan. now destruct (fisnan v).
Qed.

Lemma format_float_not_nan (v : F) :
  fisnan (fzero : F) = false -> fisnan (format_float v) = false.
Proof.
  intros H0. destruct (fisnan v) eqn:E.
  - now rewrite format_float_nan.
  - now rewrite format_float_id.
Qed.

End Guard.

(** ** Column validation *)

Section Validation.

Context {F : Type} {N : Num F}.

Lemma existsb_eqb_In (c : string) (cols : list string) :
  existsb (String.eqb c) cols = true <-> In c cols.
Proof.
  rewrite existsb_exists. split.
  - intros [x [Hin Heq]]. apply String.eqb_eq in Heq. now subst.
  - intros Hin. exists c. split; [assumption | apply String.eqb_refl].
Qed.

Lemma missing_columns_spec (df : CsvFrame) (c : string) :
  In c (missing_columns df) <-> In c required_columns /\ ~ In c (columns df).
Proof.
  unfold missing_columns. rewrite filter_In, negb_true_iff.
  rewrite <- (existsb_eqb_In c (columns df)).
  destruct (existsb (String.eqb c) (columns df)); intuition congruence.
Qed.

Lemma generate_schedule_missing (df : CsvFrame) :
  missing_columns df <> [] ->
  generate_schedule (N := N) df =
    Error 400 ("Missing required columns: " ++ join ", " (missing_columns df)).
Proof.
  intros H. unfold generate_schedule.
  destruct (missing_columns df); [contradiction | reflexivity].
Qed.

Lemma generate_schedule_ok_columns (df : CsvFrame) (s : Schedule F) :
  generate_schedule (N := N) df = Ok s ->
  missing_columns df = [] /\
  build_schedule (map (normalize_row (columns df)) (rows df)) = Some s.
Proof.
  unfold generate_schedule. destruct (missing_columns df); [|discriminate].
  destruct (build_schedule _); [|discriminate].
  intros H. now inversion H.
Qed.

Lemma only_expenses_missing (df : CsvFrame) :
  In "Month"%string (columns df) ->
  In "Date"%string (columns df) ->
  In "Total Income"%string (columns df) ->
  ~ In "Fixed Expenses"%string (columns df) ->
  missing_columns df = ["Fixed Expenses"%string].
Proof.
  intros Hm Hd Hi He. unfold missing_columns, required_columns. cbn [filter].
  apply existsb_eqb_In in Hm, Hd, Hi. rewrite Hm, Hd, Hi. cbn [negb].
  destruct (existsb (String.eqb "Fixed Expenses") (columns df)) eqn:E.
  - apply existsb_eqb_In in E. contradiction.
  - reflexivity.
Qed.

Lemma existsb_eqb_not_In (c : string) (cols : list string) :
  ~ In c cols -> existsb (String.eqb c) cols = false.
Proof.
  intros H. destruct (existsb (String.eqb c) cols) eqn:E; [|reflexivity].
  apply existsb_eqb_In in E. contradiction.
Qed.

(** C7. When a required column is absent the answer is the status-400
    error whose message lists the missing columns, all of them and only
    them, in the order Month, Date, Total Income, Fixed Expenses, separated
    by a comma and a space; no schedule is returned.  A file that lacks
    only Fixed Expenses is answered with exactly that one name, a file that
    lacks the two numeric columns with their two names, and a file with
    none of the required columns with the four names. *)
Theorem missing_columns_reported (df : CsvFrame) :
  missing_columns df <> [] ->
  generate_schedule (N := N) df =
    Error 400 ("Missing required columns: " ++ join ", " (missing_columns df))
  /\ (forall c, In c (missing_columns df) <->
                In c required_columns /\ ~ In c (columns df))
  /\ (forall s, generate_schedule (N := N) df <> Ok s)
  /\ (In "Month"%string (columns df) ->
      In "Date"%string (columns df) ->
      In "Total Income"%string (columns df) ->
      generate_schedule (N := N) df =
        Error 400 "Missing required columns: Fixed Expenses")
  /\ (In "Month"%string (columns df) ->
      In "Date"%string (columns df) ->
      ~ In "Total Income"%string (columns df) ->
      ~ In "Fixed Expenses"%string (columns df) ->
      generate_schedule (N := N) df =
        Error 400 "Missing required columns: Total Income, Fixed Expenses")
  /\ (~ In "Month"%string (columns df) ->
      ~ In "Date"%string (columns df) ->
      ~ In "Total Income"%string (columns df) ->
      ~ In "Fixed Expenses"%string (columns df) ->
      generate_schedule (N := N) df =
        Error 400
          "Missing required columns: Month, Date, Total Income, Fixed Expenses").
Proof.
  intros H. pose proof (generate_schedule_missing df H) as E.
  split; [exact E|]. split; [apply missing_columns_spec|]. split; [|split; [|split]].
  - intros s Hs. rewrite E in Hs. discriminate.
  - intros Hm Hd Hi.
    assert (He : ~ In "Fixed Expenses"%string (columns df)).
    { intros He. apply H. unfold missing_columns, required_columns.
      cbn [filter]. apply existsb_eqb_In in Hm, Hd, Hi, He.
      now rewrite Hm, Hd, Hi, He. }
    rewrite E, (only_expenses_missing df Hm Hd Hi He). reflexivity.
  - intros Hm Hd Hi He. rewrite E. unfold missing_columns, required_columns.
    cbn [filter]. apply existsb_eqb_In in Hm, Hd.
    apply existsb_eqb_not_In in Hi, He. rewrite Hm, Hd, Hi, He. reflexivity.
  - intros Hm Hd Hi He. rewrite E. unfold missing_columns, required_columns.
    cbn [filter]. apply existsb_eqb_not_In in Hm, Hd, Hi, He.
    rewrite Hm, Hd, Hi, He. reflexivity.
Qed.

End Validation.

Lemma missing_columns_reported_witness :
  generate_schedule (N := binary64) no_expenses =
    Error 400 "Missing required columns: Fixed Expenses" /\
  generate_schedule (N := binary64) labels_only =
    Error 400 "Missing required columns: Total Income, Fixed Expenses" /\
  generate_schedule (N := binary64) notes_only =
    Error 400 "Missing required columns: Month, Date, Total Income, Fixed Expenses".
Proof.
  split; [|split].
  - destruct (@missing_columns_reported B64.float binary64 no_expenses)
      as (_ & _ & _ & E & _).
    + vm_compute. discriminate.
    + apply E; cbn; tauto.
  - destruct (@missing_columns_reported B64.float binary64 labels_only)
      as (_ & _ & _ & _ & E & _).
    + vm_compute. discriminate.
    + apply E.
      * now left.
      * right. now left.
      * intros [H|[H|[]]]; discriminate.
      * intros [H|[H|[]]]; discriminate.
  - destruct (@missing_columns_reported B64.float binary64 notes_only)
      as (_ & _ & _ & _ & _ & E).
    + vm_compute. discriminate.
    + apply E; intros [H|[]]; discriminate.
Defined.

(** ** The schedule loop *)

Section Loop.

Context {F : Type} {N : Num F}.

(** The balance after the rows of [df], starting from [acc]. *)
Lemma schedule_loop_length (df : list (Row F)) :
  forall acc, List.length (schedule_loop acc df) = List.length df.
Proof.
  induction df as [|row rest IH]; intros acc; simpl; [reflexivity|].
  now rewrite IH.
Qed.

Lemma schedule_loop_payments (df : list (Row F)) :
  forall acc,
    map payment (schedule_loop acc df) =
    map (fun row => format_float (Available_Money row)) df.
Proof.
  induction df as [|row rest IH]; intros acc; simpl; [reflexivity|].
  now rewrite IH.
Qed.

Lemma schedule_loop_dates (df : list (Row F)) :
  forall acc, map date (schedule_loop acc df) = map Date df.
Proof.
  induction df as [|row rest IH]; intros acc; simpl; [reflexivity|].
  now rewrite IH.
Qed.

Lemma schedule_loop_rates (df : list (Row F)) :
  forall acc,
    map savings_rate (schedule_loop acc df) =
    map (fun row => format_float (Savings_Rate row)) df.
Proof.
  induction df as [|row rest IH]; intros acc; simpl; [reflexivity|].
  now rewrite IH.
Qed.

Lemma schedule_loop_nth (df : list (Row F)) :
  forall acc i row,
    nth_error df i = Some row ->
    exists r,
      nth_error (schedule_loop acc df) i = Some r /\
      date r = Date row /\
      payment r = format_float (Available_Money row) /\
      savings_rate r = format_float (Savings_Rate row) /\
      remaining_balance r =
        format_float
          (fold_left fadd
             (map (fun x => format_float (Available_Money x)) (firstn (S i) df))
             acc).
Proof.
  induction df as [|x rest IH]; intros acc i row Hi.
  - destruct i; discriminate.
  - destruct i as [|i].
    + inversion Hi; subst. eexists. split; [reflexivity|]. now simpl.
    + simpl in Hi. destruct (IH (fadd acc (format_float (Available_Money x))) i row Hi)
        as [r [Hr [Hd [Hp [Hs Hb]]]]].
      exists r. split; [exact Hr|]. repeat split; assumption.
Qed.

(** The last row carries the balance of the whole loop. *)
Lemma schedule_loop_last (df : list (Row F)) :
  forall acc,
    df <> [] ->
    option_map remaining_balance (iloc_last (schedule_loop acc df)) =
    Some (format_float
            (fold_left fadd
               (map (fun x => format_float (Available_Money x)) df) acc)).
Proof.
  induction df as [|x rest IH]; intros acc Hne; [contradiction|].
  destruct rest as [|y rest'].
  - reflexivity.
  - specialize (IH (fadd acc (format_float (Available_Money x)))).
    assert (Hne' : y :: rest' <> []) by discriminate.
    specialize (IH Hne'). simpl in IH |- *. exact IH.
Qed.

Lemma build_schedule_fields (df : list (Row F)) (s : Schedule F) :
  build_schedule df = Some s ->
  data s = schedule_loop fzero df /\
  total_amount (metrics s) = format_float (series_sum (map Available_Money df)) /\
  total_income (metrics s) = format_float (series_sum (map Total_Income df)) /\
  total_expenses (metrics s) = format_float (series_sum (map Fixed_Expenses df)) /\
  average_savings_rate (metrics s) = format_float (series_mean (map Savings_Rate df)) /\
  average_payment (metrics s) = format_float (series_mean (map Available_Money df)) /\
  trends (metrics s) = calculate_trends df /\
  calculate_monthly_stats df = Some (monthly_stats (metrics s)) /\
  total_months (metrics s) = List.length df.
Proof.
  unfold build_schedule.
  destruct (calculate_monthly_stats df) as [ms|]; [|discriminate].
  destruct (iloc_last (map Date df)) as [d|]; [|discriminate].
  intros H. inversion H; subst; simpl. repeat split; reflexivity.
Qed.


End Loop.


(** ** binary64 arithmetic

    Facts about rounding that the properties of the engine rest on: a
    rounded positive mantissa stays positive, the sum or difference of two
    finite numbers is a number, a nonzero finite number divided by itself
    is one, and a positive count converts to a positive number. *)

Section Rounding.

Local Open Scope Z_scope.



Lemma shr_1_halves (mrs : shr_record) :
  0 <= shr_m mrs -> shr_m (shr_1 mrs) = Z.div2 (shr_m mrs).
Proof.
  destruct mrs as [m r s]. simpl.
  destruct m as [|[p|p|]|p]; simpl; intros; try reflexivity; lia.
Qed.

Lemma iter_shr_1_shiftr (p : positive) :
  forall mrs, 0 <= shr_m mrs ->
    shr_m (iter_pos shr_1 p mrs) = Z.shiftr (shr_m mrs) (Zpos p).
Proof.
  induction p as [p IH|p IH|]; intros mrs H; simpl.
  - assert (H1 : 0 <= shr_m (shr_1 mrs))
      by (rewrite shr_1_halves by assumption; rewrite Z.div2_nonneg; assumption).
    rewrite IH.
    + rewrite IH by assumption. rewrite shr_1_halves by assumption.
      rewrite Z.div2_spec. rewrite !Z.shiftr_shiftr by lia. f_equal. lia.
    + rewrite IH by assumption. apply Z.shiftr_nonneg. assumption.
  - rewrite IH.
    + rewrite IH by assumption. rewrite !Z.shiftr_shiftr by lia. f_equal. lia.
    + rewrite IH by assumption. apply Z.shiftr_nonneg. assumption.
  - rewrite shr_1_halves by assumption. apply Z.div2_spec.
Qed.

Lemma shr_record_of_loc_m (m : Z) (l : location) :
  shr_m (shr_record_of_loc m l) = m.
Proof. destruct l as [|[]]; reflexivity. Qed.

(** Shifting never turns a nonnegative mantissa negative. *)
Lemma shr_fexp_nonneg (m e : Z) (l : location) :
  0 <= m -> 0 <= shr_m (fst (shr_fexp B64.prec B64.emax m e l)).
Proof.
  intros Hm. unfold shr_fexp, shr.
  destruct (fexp B64.prec B64.emax (Zdigits2 m + e) - e) as [|p|p]; simpl;
    try (rewrite shr_record_of_loc_m; assumption).
  rewrite iter_shr_1_shiftr by (rewrite shr_record_of_loc_m; assumption).
  rewrite shr_record_of_loc_m. apply Z.shiftr_nonneg. assumption.
Qed.


Lemma round_nearest_even_bounds (m : Z) (l : location) :
  m <= round_nearest_even m l <= m + 1.
Proof.
  unfold round_nearest_even. destruct l as [|[]]; try lia.
  destruct (Z.even m); lia.
Qed.

Lemma binary_round_aux_not_nan (sx : bool) (m e : Z) (l : location) :
  0 <= m -> binary_round_aux B64.prec B64.emax sx m e l <> S754_nan.
Proof.
  intros Hm. unfold binary_round_aux.
  pose proof (shr_fexp_nonneg m e l Hm) as H1.
  destruct (shr_fexp B64.prec B64.emax m e l) as [mrs' e'] eqn:E1. simpl in H1.
  pose proof (round_nearest_even_bounds (shr_m mrs') (loc_of_shr_record mrs')) as Hr.
  assert (H2 : 0 <= round_nearest_even (shr_m mrs') (loc_of_shr_record mrs')) by lia.
  pose proof (shr_fexp_nonneg _ e' loc_Exact H2) as H3.
  destruct (shr_fexp B64.prec B64.emax _ e' loc_Exact) as [mrs'' e''] eqn:E2.
  simpl in H3. destruct (shr_m mrs'') as [|p|p]; try discriminate; try lia.
  destruct (e'' <=? B64.emax - B64.prec); discriminate.
Qed.


Lemma binary_round_not_nan (sx : bool) (m : positive) (e : Z) :
  binary_round B64.prec B64.emax sx m e <> S754_nan.
Proof.
  unfold binary_round. destruct (shl_align _ _ _) as [mz ez].
  apply binary_round_aux_not_nan. lia.
Qed.

Lemma binary_normalize_not_nan (m e : Z) (sz : bool) :
  binary_normalize B64.prec B64.emax m e sz <> S754_nan.
Proof.
  destruct m; simpl; [discriminate | apply binary_round_not_nan ..].
Qed.

End Rounding.

Section Binary64Facts.

Local Open Scope Z_scope.

Lemma new_location_zero (nb : Z) : new_location nb 0 = loc_Exact.
Proof.
  unfold new_location, new_location_even, new_location_odd.
  now destruct (Z.even nb).
Qed.

(** [x / x = 1] for every finite nonzero [x]. *)
Lemma div_self (s : bool) (m : positive) (e : Z) :
  B64.div (S754_finite s m e) (S754_finite s m e) = B64.one.
Proof.
  unfold B64.div, SFdiv, SFdiv_core_binary.
  replace (Zdigits2 (Z.pos m) + e - (Zdigits2 (Z.pos m) + e)) with 0 by lia.
  replace (e - e) with 0 by lia.
  change (Z.min (fexp B64.prec B64.emax 0) 0) with (-53).
  change (0 - -53) with 53.
  cbv iota beta.
  assert (H : Z.div_eucl (Z.shiftl (Z.pos m) 53) (Z.pos m) = (2 ^ 53, 0)).
  { rewrite Z.shiftl_mul_pow2 by lia.
    pose proof (Z.div_eucl_eq (Z.pos m * 2 ^ 53) (Z.pos m)) as Heq.
    pose proof (Z.mod_pos_bound (Z.pos m * 2 ^ 53) (Z.pos m)) as Hb.
    unfold Z.modulo in Hb.
    destruct (Z.div_eucl (Z.pos m * 2 ^ 53) (Z.pos m)) as [q r].
    assert (Hq : q = 2 ^ 53) by nia.
    f_equal; nia. }
  rewrite H, new_location_zero, xorb_nilpotent. vm_compute. reflexivity.
Qed.



(** The difference of two finite numbers is a number. *)
Lemma sub_finite_not_nan (x y : B64.float) :
  B64.is_finite x = true -> B64.is_finite y = true ->
  B64.is_nan (B64.sub x y) = false.
Proof.
  destruct x as [sx|sx| |sx mx ex]; destruct y as [sy|sy| |sy my ey];
    simpl; intros Hx Hy; try discriminate; try reflexivity.
  - now destruct sx, sy.
  - pose proof (binary_normalize_not_nan
        (cond_Zopp sx (Z.pos (fst (shl_align mx ex (Z.min ex ey)))) -
         cond_Zopp sy (Z.pos (fst (shl_align my ey (Z.min ex ey)))))
        (Z.min ex ey) false) as H.
    unfold B64.sub, SFsub.
    destruct (binary_normalize _ _ _ _ _); try reflexivity. contradiction.
Qed.


Lemma ltb_irrefl (x : B64.float) : B64.ltb x x = false.
Proof.
  unfold B64.ltb, SFltb, SFcompare.
  destruct x as [[]|[]| |[] m e]; try reflexivity;
    rewrite Z.compare_refl;
    change (Pos.compare_cont Eq m m) with (Pos.compare m m);
    rewrite Pos.compare_refl; reflexivity.
Qed.




End Binary64Facts.

(** ** Summation *)

Section Chunks.

Context {A : Type}.

(** Induction over a list eight elements at a time. *)
Lemma list_ind8 (Q : list A -> Prop) :
  (forall a, (List.length a < 8)%nat -> Q a) ->
  (forall a0 a1 a2 a3 a4 a5 a6 a7 rest,
      Q rest -> Q (a0 :: a1 :: a2 :: a3 :: a4 :: a5 :: a6 :: a7 :: rest)) ->
  forall a, Q a.
Proof.
  intros Hshort Hstep a.
  remember (List.length a) as n eqn:Hn. revert a Hn.
  induction n as [n IH] using (well_founded_induction lt_wf).
  intros a Hn.
  destruct a as [|a0 [|a1 [|a2 [|a3 [|a4 [|a5 [|a6 [|a7 rest]]]]]]]];
    try (apply Hshort; simpl; lia).
  apply Hstep. apply (IH (List.length rest)); [subst; simpl; lia | reflexivity].
Qed.

End Chunks.

Section Sums.

Context {F : Type} {N : Num F}.

Lemma unrolled_short (r : acc8) (a : list F) :
  (List.length a < 8)%nat -> unrolled r a = (r, a).
Proof.
  intros H.
  destruct a as [|a0 [|a1 [|a2 [|a3 [|a4 [|a5 [|a6 [|a7 rest]]]]]]]];
    try reflexivity.
  simpl in H. lia.
Qed.

Lemma block_sum_short (a : list F) :
  (List.length a < 8)%nat -> block_sum a = fold_left fadd a fzero.
Proof.
  intros H.
  destruct a as [|a0 [|a1 [|a2 [|a3 [|a4 [|a5 [|a6 [|a7 rest]]]]]]]];
    try reflexivity.
  simpl in H. lia.
Qed.

(** A set of numbers that holds zero and is closed under addition holds
    every sum of its members. *)
Section Closed.

Variable P : F -> Prop.
Hypothesis P_zero : P fzero.
Hypothesis P_add : forall x y, P x -> P y -> P (fadd x y).







End Closed.

End Sums.

(** ** Sums of exact numbers *)

Section ExactSums.

Local Open Scope Qc_scope.

Lemma qsum_nil : Exact.qsum [] = 0.
Proof. reflexivity. Qed.

Lemma qsum_cons (q : Qc) (l : list Qc) : Exact.qsum (q :: l) = q + Exact.qsum l.
Proof. reflexivity. Qed.

Lemma qsum_app (l1 l2 : list Qc) :
  Exact.qsum (l1 ++ l2) = Exact.qsum l1 + Exact.qsum l2.
Proof.
  induction l1 as [|q l1 IH].
  - rewrite qsum_nil. simpl app. ring.
  - simpl app. rewrite !qsum_cons, IH. ring.
Qed.

Lemma fold_left_fin (qs : list Qc) :
  forall a, fold_left fadd (map Exact.Fin qs) (Exact.Fin a)
            = Exact.Fin (a + Exact.qsum qs).
Proof.
  induction qs as [|q qs IH]; intros a.
  - rewrite qsum_nil. simpl. f_equal. ring.
  - cbn [map fold_left].
    change (fadd (Exact.Fin a) (Exact.Fin q)) with (Exact.Fin (a + q)).
    rewrite IH, qsum_cons. f_equal. ring.
Qed.

Lemma unrolled_fin (qs : list Qc) :
  forall r0 r1 r2 r3 r4 r5 r6 r7,
  exists t0 t1 t2 t3 t4 t5 t6 t7 tail,
    unrolled (Exact.Fin r0, Exact.Fin r1, Exact.Fin r2, Exact.Fin r3,
              Exact.Fin r4, Exact.Fin r5, Exact.Fin r6, Exact.Fin r7)
             (map Exact.Fin qs)
    = ((Exact.Fin t0, Exact.Fin t1, Exact.Fin t2, Exact.Fin t3,
        Exact.Fin t4, Exact.Fin t5, Exact.Fin t6, Exact.Fin t7),
       map Exact.Fin tail)
    /\ ((t0 + t1) + (t2 + t3)) + ((t4 + t5) + (t6 + t7)) + Exact.qsum tail
       = ((r0 + r1) + (r2 + r3)) + ((r4 + r5) + (r6 + r7)) + Exact.qsum qs.
Proof.
  induction qs as [qs Hlen | q0 q1 q2 q3 q4 q5 q6 q7 rest IH] using list_ind8;
    intros r0 r1 r2 r3 r4 r5 r6 r7.
  - exists r0, r1, r2, r3, r4, r5, r6, r7, qs. split; [|reflexivity].
    apply unrolled_short. now rewrite length_map.
  - destruct (IH (r0 + q0) (r1 + q1) (r2 + q2) (r3 + q3)
                 (r4 + q4) (r5 + q5) (r6 + q6) (r7 + q7))
      as (t0 & t1 & t2 & t3 & t4 & t5 & t6 & t7 & tail & Hu & Hs).
    exists t0, t1, t2, t3, t4, t5, t6, t7, tail. split.
    + exact Hu.
    + rewrite Hs, !qsum_cons. ring.
Qed.

Lemma block_sum_fin (qs : list Qc) :
  block_sum (map Exact.Fin qs) = Exact.Fin (Exact.qsum qs).
Proof.
  destruct (Nat.lt_ge_cases (List.length qs) 8) as [Hlt|Hge].
  - rewrite block_sum_short by (now rewrite length_map).
    change (@fzero _ rational) with (Exact.Fin 0).
    rewrite fold_left_fin. f_equal. ring.
  - destruct qs as [|q0 [|q1 [|q2 [|q3 [|q4 [|q5 [|q6 [|q7 rest]]]]]]]];
      try (simpl in Hge; lia).
    cbn [map block_sum].
    destruct (unrolled_fin rest q0 q1 q2 q3 q4 q5 q6 q7)
      as (t0 & t1 & t2 & t3 & t4 & t5 & t6 & t7 & tail & Hu & Hs).
    rewrite Hu. unfold collapse.
    change (fadd (fadd (fadd (Exact.Fin t0) (Exact.Fin t1))
                       (fadd (Exact.Fin t2) (Exact.Fin t3)))
                 (fadd (fadd (Exact.Fin t4) (Exact.Fin t5))
                       (fadd (Exact.Fin t6) (Exact.Fin t7))))
      with (Exact.Fin (((t0 + t1) + (t2 + t3)) + ((t4 + t5) + (t6 + t7)))).
    rewrite fold_left_fin, Hs, !qsum_cons. f_equal. ring.
Qed.

Lemma pairwise_sum_fin (fuel : nat) :
  forall qs, pairwise_sum fuel (map Exact.Fin qs) = Exact.Fin (Exact.qsum qs).
Proof.
  induction fuel as [|fuel IH]; intros qs; simpl.
  - apply block_sum_fin.
  - destruct (List.length (map Exact.Fin qs) <=? 128)%nat.
    + apply block_sum_fin.
    + rewrite firstn_map, skipn_map, !IH.
      cbn [fadd rational Exact.add].
      rewrite <- qsum_app, firstn_skipn. reflexivity.
Qed.

Lemma np_sum_fin (qs : list Qc) :
  np_sum (map Exact.Fin qs) = Exact.Fin (Exact.qsum qs).
Proof. apply pairwise_sum_fin. Qed.

Lemma series_sum_fin (qs : list Qc) :
  series_sum (map Exact.Fin qs) = Exact.Fin (Exact.qsum qs).
Proof.
  unfold series_sum. rewrite map_map. apply np_sum_fin.
Qed.

End ExactSums.

(** ** The last balance and the total *)

Section Balance.

Context {F : Type} {N : Num F}.

Lemma payments_filled (df : list (Row F)) :
  map (fun x => format_float (Available_Money x)) df
  = map (fillna fzero) (map Available_Money df).
Proof.
  rewrite map_map. apply map_ext. intros row. apply format_float_fillna.
Qed.

Lemma build_schedule_nonempty (df : list (Row F)) (s : Schedule F) :
  build_schedule df = Some s -> df <> [].
Proof.
  intros H Hnil. subst df. unfold build_schedule in H.
  destruct (calculate_monthly_stats []); discriminate.
Qed.

End Balance.

Section ExactBalance.

Local Open Scope Qc_scope.

Lemma exact_finite (x : Exact.xrat) :
  Exact.is_finite x = true -> x = Exact.Fin (Exact.value x).
Proof. destruct x; simpl; intros H; try discriminate; reflexivity. Qed.

Lemma exact_available (df : list (Row Exact.xrat)) :
  Forall exact_row df ->
  map Available_Money df = map Exact.Fin (map available df).
Proof.
  induction 1 as [|row rest [Hi He] _ IH]; simpl; [reflexivity|].
  rewrite IH. f_equal. unfold Available_Money, available.
  rewrite (exact_finite _ Hi), (exact_finite _ He). reflexivity.
Qed.

Lemma exact_incomes (df : list (Row Exact.xrat)) :
  Forall exact_row df ->
  map Total_Income df
  = map Exact.Fin (map (fun row => Exact.value (Total_Income row)) df).
Proof.
  induction 1 as [|row rest [Hi He] _ IH]; simpl; [reflexivity|].
  rewrite IH. f_equal. apply (exact_finite _ Hi).
Qed.

Lemma exact_expenses (df : list (Row Exact.xrat)) :
  Forall exact_row df ->
  map Fixed_Expenses df
  = map Exact.Fin (map (fun row => Exact.value (Fixed_Expenses row)) df).
Proof.
  induction 1 as [|row rest [Hi He] _ IH]; simpl; [reflexivity|].
  rewrite IH. f_equal. apply (exact_finite _ He).
Qed.

Lemma qsum_available (df : list (Row Exact.xrat)) :
  Exact.qsum (map available df)
  = Exact.qsum (map (fun row => Exact.value (Total_Income row)) df)
    - Exact.qsum (map (fun row => Exact.value (Fixed_Expenses row)) df).
Proof.
  induction df as [|row rest IH].
  - cbn [map]. rewrite !qsum_nil. ring.
  - cbn [map]. rewrite !qsum_cons, IH. unfold available. ring.
Qed.

(** In exact arithmetic the loop's last balance, the total and the plain
    sum of the rows' available money are one number. *)
Lemma last_balance_exact (df : list (Row Exact.xrat)) (s : Schedule Exact.xrat) :
  build_schedule df = Some s ->
  Forall exact_row df ->
  option_map remaining_balance (iloc_last (data s))
  = Some (total_amount (metrics s))
  /\ total_amount (metrics s) = Exact.Fin (Exact.qsum (map available df)).
Proof.
  intros H Hfin. pose proof (build_schedule_nonempty df s H) as Hne.
  apply build_schedule_fields in H. destruct H as (Hd & Ht & _).
  assert (Htot : total_amount (metrics s)
                 = Exact.Fin (Exact.qsum (map available df))).
  { rewrite Ht, (exact_available df Hfin), series_sum_fin. reflexivity. }
  split; [|exact Htot].
  rewrite Hd, Htot, (schedule_loop_last df fzero Hne). f_equal.
  rewrite payments_filled, (exact_available df Hfin), map_map.
  change (map (fun x : Qc => fillna fzero (Exact.Fin x)) (map available df))
    with (map Exact.Fin (map available df)).
  change (@fzero _ rational) with (Exact.Fin 0).
  rewrite fold_left_fin.
  change (format_float (Exact.Fin ?q)) with (Exact.Fin q).
  f_equal. ring.
Qed.

(** In exact arithmetic the total is the income total less the expense
    total. *)
Lemma totals_consistent_exact (df : list (Row Exact.xrat)) (s : Schedule Exact.xrat) :
  build_schedule df = Some s ->
  Forall exact_row df ->
  total_amount (metrics s)
  = fsub (total_income (metrics s)) (total_expenses (metrics s)).
Proof.
  intros H Hfin.
  apply build_schedule_fields in H. destruct H as (_ & Ht & Hi & He & _).
  rewrite Ht, Hi, He.
  rewrite (exact_available df Hfin), (exact_incomes df Hfin),
    (exact_expenses df Hfin), !series_sum_fin.
  cbn [format_float pd_isna np_isnan fisnan rational Exact.is_nan orb fsub Exact.sub].
  f_equal. apply qsum_available.
Qed.

End ExactBalance.

(** ** Numeric normalisation *)

Section Normalisation.

Context {F : Type} {N : Num F}.

(** A successful conversion is the value of some decimal numeral. *)
Lemma to_double_decimal (s : string) (v : F) :
  to_double s = Some v -> exists neg m k, of_decimal neg m k = Some v.
Proof.
  unfold to_double.
  destruct (match s with
            | EmptyString => (false, s)
            | String c t => if Ascii.eqb c "-" then (true, t) else (false, s)
            end) as [neg s1].
  destruct (read_digits s1 0 0) as [[ip ni] s2].
  destruct (match s2 with
            | EmptyString => (ip, ni, s2)
            | String c t => if Ascii.eqb c "." then read_digits t ip ni else (ip, ni, s2)
            end) as [[m nd] s3].
  destruct nd as [|nd]; [discriminate|].
  destruct s3; [|discriminate].
  intros H. now exists neg, m, (S nd - ni)%nat.
Qed.

Lemma str_replace_chars (s : string) :
  list_ascii_of_string (str_replace s)
  = filter numeric_char (list_ascii_of_string s).
Proof.
  induction s as [|c t IH]; simpl; [reflexivity|].
  destruct (numeric_char c); simpl; now rewrite IH.
Qed.

Lemma normalize_cell_cases (s : string) :
  normalize_cell s =
    match to_double (str_replace s) with
    | Some v => if fisnan v then fzero else v
    | None => if fisnan (fnan : F) then fzero else fnan
    end.
Proof.
  unfold normalize_cell, to_numeric, fillna.
  now destruct (to_double (str_replace s)).
Qed.

End Normalisation.

Lemma normalize_cell_rational (s : string) :
  Exact.is_finite (normalize_cell (N := rational) s) = true.
Proof.
  rewrite normalize_cell_cases.
  destruct (to_double (str_replace s)) as [v|] eqn:E; [|reflexivity].
  destruct (to_double_decimal _ _ E) as (neg & m & k & Hd).
  unfold of_decimal, rational, Exact.decimal in Hd.
  inversion Hd; subst. reflexivity.
Qed.

Lemma table_exact (df : CsvFrame) :
  Forall exact_row (map (normalize_row (N := rational) (columns df)) (rows df)).
Proof.
  apply Forall_map, Forall_forall. intros cells _.
  split; apply normalize_cell_rational.
Qed.

(** ** C1 and C10: the totals *)

(** C1 (as amended).  In exact arithmetic, for every file that yields a
    schedule, the last schedule row's balance equals the total amount, and
    both equal the sum of the rows' available money. *)
Theorem last_balance_is_total (df : CsvFrame) (s : Schedule Exact.xrat) :
  generate_schedule (N := rational) df = Ok s ->
  option_map remaining_balance (iloc_last (data s))
  = Some (total_amount (metrics s))
  /\ total_amount (metrics s)
     = Exact.Fin (Exact.qsum
                    (map available
                       (map (normalize_row (columns df)) (rows df)))).
Proof.
  intros H. apply generate_schedule_ok_columns in H. destruct H as [_ H].
  apply (last_balance_exact _ s H), table_exact.
Qed.

Lemma last_balance_is_total_witness :
  exists s, generate_schedule (N := rational) quarter = Ok s /\
            option_map remaining_balance (iloc_last (data s))
            = Some (total_amount (metrics s)).
Proof.
  destruct (generate_schedule (N := rational) quarter) as [s|st e] eqn:E.
  - exists s. split; [reflexivity|].
    exact (proj1 (last_balance_is_total quarter s E)).
  - vm_compute in E. discriminate.
Defined.

(** On binary64 the loop loses each of the eight incomes of 1 to rounding
    and ends at 0, while the column sum keeps them: the last balance is 0
    and the total amount 8. *)
Lemma last_balance_differs_from_total :
  exists s last,
    generate_schedule (N := binary64) ten_months = Ok s /\
    iloc_last (data s) = Some last /\
    remaining_balance last = B64.zero /\
    total_amount (metrics s) = B64.of_Z 8 /\
    B64.ltb tolerance
      (distance (remaining_balance last) (total_amount (metrics s))) = true.
Proof.
  destruct (generate_schedule (N := binary64) ten_months) as [s|st e] eqn:E.
  - vm_compute in E. inversion E; subst; clear E.
    eexists. eexists. split; [reflexivity|].
    split; [reflexivity|]. vm_compute. repeat split; reflexivity.
  - vm_compute in E. discriminate.
Qed.

(** C10 (as amended).  In exact arithmetic the total amount is the total
    income less the total expenses, for every file. *)
Theorem totals_consistent (df : CsvFrame) (s : Schedule Exact.xrat) :
  generate_schedule (N := rational) df = Ok s ->
  total_amount (metrics s)
  = fsub (total_income (metrics s)) (total_expenses (metrics s)).
Proof.
  intros H. apply generate_schedule_ok_columns in H. destruct H as [_ H].
  apply (totals_consistent_exact _ s H), table_exact.
Qed.

Lemma totals_consistent_witness :
  exists s, generate_schedule (N := rational) quarter = Ok s /\
            total_amount (metrics s)
            = fsub (total_income (metrics s)) (total_expenses (metrics s)).
Proof.
  destruct (generate_schedule (N := rational) quarter) as [s|st e] eqn:E.
  - exists s. split; [reflexivity|]. exact (totals_consistent quarter s E).
  - vm_compute in E. discriminate.
Defined.

(** On binary64 the three totals are rounded separately: here the total
    amount is 1 while total income less total expenses is 0. *)
Lemma totals_inconsistent_binary64 :
  exists s,
    generate_schedule (N := binary64) crossed = Ok s /\
    total_amount (metrics s) = B64.one /\
    B64.sub (total_income (metrics s)) (total_expenses (metrics s)) = B64.zero /\
    B64.ltb tolerance
      (distance (total_amount (metrics s))
         (B64.sub (total_income (metrics s)) (total_expenses (metrics s))))
    = true.
Proof.
  destruct (generate_schedule (N := binary64) crossed) as [s|st e] eqn:E.
  - vm_compute in E. inversion E; subst; clear E.
    eexists. split; [reflexivity|]. vm_compute. repeat split; reflexivity.
  - vm_compute in E. discriminate.
Qed.

(** ** C3: what the guard lets through *)

Section Guarded.

Context {F : Type} {N : Num F}.

Lemma guarded_format_float (raw : F) : guarded (format_float raw).
Proof. now exists raw. Qed.

Lemma schedule_loop_guarded (df : list (Row F)) :
  forall acc, Forall guarded (flat_map row_numbers (schedule_loop acc df)).
Proof.
  induction df as [|row rest IH]; intros acc; simpl; [constructor|].
  repeat (constructor; [apply guarded_format_float|]). apply IH.
Qed.

Lemma growth_of_guarded (s : list F) (g : F) :
  growth_of s = Some g -> guarded g.
Proof.
  unfold growth_of. destruct (iloc_last s), (iloc_first s); try discriminate.
  intros H. inversion H. apply guarded_format_float.
Qed.

Lemma series_stats_guarded (s : list F) (st : SeriesStats F) :
  series_stats s = Some st -> guarded (mean st) /\ guarded (growth st).
Proof.
  unfold series_stats. destruct (growth_of s) as [g|] eqn:E; [|discriminate].
  intros H. inversion H; subst; simpl. split.
  - apply guarded_format_float.
  - now apply (growth_of_guarded s).
Qed.

Lemma monthly_stats_guarded (df : list (Row F)) (ms : MonthlyStats F) :
  calculate_monthly_stats df = Some ms ->
  guarded (mean (income_stats ms)) /\ guarded (growth (income_stats ms)) /\
  guarded (mean (expense_stats ms)) /\ guarded (growth (expense_stats ms)) /\
  guarded (savings_mean (savings_stats ms)).
Proof.
  unfold calculate_monthly_stats.
  destruct (series_stats (map Total_Income df)) as [ist|] eqn:Ei; [|discriminate].
  destruct (series_stats (map Fixed_Expenses df)) as [est|] eqn:Ee; [|discriminate].
  destruct (idxmax _) as [imax|]; [|discriminate].
  destruct (idxmin _) as [imin|]; [|discriminate].
  destruct (month_at df imax); [|discriminate].
  destruct (month_at df imin); [|discriminate].
  intros H. inversion H; subst; simpl.
  destruct (series_stats_guarded _ _ Ei), (series_stats_guarded _ _ Ee).
  repeat split; try assumption. apply guarded_format_float.
Qed.

(** Every number of a schedule is an output of [format_float]. *)
Lemma numbers_guarded (df : list (Row F)) (s : Schedule F) :
  build_schedule df = Some s -> Forall guarded (numbers s).
Proof.
  intros H. destruct (build_schedule_fields df s H)
    as (Hd & Ht & Hi & He & Hr & Hp & Htr & Hms & _).
  destruct (monthly_stats_guarded df _ Hms) as (G1 & G2 & G3 & G4 & G5).
  unfold numbers. apply Forall_app. split.
  - rewrite Ht, Hi, He, Hr, Hp, Htr. unfold calculate_trends, trend_rate. simpl.
    repeat (constructor; [first [apply guarded_format_float | assumption]|]).
    constructor.
  - rewrite Hd. apply schedule_loop_guarded.
Qed.

End Guarded.

(** C3 (as amended).  [format_float] answers 0.0 on NaN and is the
    identity on every other number, the two infinities included.  Every
    number of the response other than the count of months is an output of
    [format_float], and so is never NaN: the metrics, the trends, the
    monthly statistics and the schedule rows, and also the minimum, the
    maximum, the medians and the standard deviations, whatever the library
    computes for them. *)
Theorem format_float_guards_nan :
  (forall v : B64.float, B64.is_nan v = true -> format_float v = B64.zero) /\
  (forall v : B64.float, B64.is_nan v = false -> format_float v = v) /\
  (forall sign : bool,
      format_float (N := binary64) (S754_infinity sign) = S754_infinity sign) /\
  (forall (series_min series_max series_median series_std
             : list B64.float -> B64.float)
          (df : list (Row B64.float)) (s : Schedule B64.float),
      build_schedule (N := binary64) df = Some s ->
      Forall (fun v => guarded v /\ B64.is_nan v = false)
             (numbers s
              ++ other_numbers series_min series_max series_median series_std df)).
Proof.
  split; [exact (@format_float_nan _ binary64)|].
  split; [exact (@format_float_id _ binary64)|].
  split; [reflexivity|].
  intros smin smax smedian sstd df s H.
  assert (G : Forall guarded (numbers s ++ other_numbers smin smax smedian sstd df)).
  { apply Forall_app. split; [exact (numbers_guarded _ s H)|].
    unfold other_numbers.
    repeat (constructor; [apply guarded_format_float|]). constructor. }
  eapply Forall_impl; [|exact G].
  intros v [raw Hv]. split; [now exists raw|].
  subst v. now apply (@format_float_not_nan _ binary64).
Qed.

Lemma format_float_guards_nan_witness :
  format_float (N := binary64) S754_nan = B64.zero /\
  format_float (N := binary64) B64.hundred = B64.hundred /\
  exists s,
    build_schedule (N := binary64) overflowing = Some s /\
    Forall (fun v => guarded v /\ B64.is_nan v = false)
           (numbers s
            ++ other_numbers (fun _ => S754_nan) (fun _ => S754_infinity false)
                             (fun _ => B64.one) (fun _ => S754_nan) overflowing).
Proof.
  destruct format_float_guards_nan as (Hnan & Hid & _ & Hall).
  split; [apply Hnan; reflexivity|].
  split; [apply Hid; reflexivity|].
  destruct (build_schedule (N := binary64) overflowing) as [s|] eqn:E.
  - exists s. split; [reflexivity|]. apply Hall. exact E.
  - vm_compute in E. discriminate.
Defined.

(** An infinity passes the guard unchanged. *)
Lemma format_float_keeps_infinity :
  format_float (N := binary64) (S754_infinity false) = S754_infinity false /\
  format_float (N := binary64) (S754_infinity false) <> B64.zero.
Proof. split; [reflexivity | discriminate]. Qed.

(** ** C6: growth *)

Section Growth.

Lemma iloc_first_last_some {A : Type} (s : list A) :
  s <> [] -> exists first last, iloc_first s = Some first /\ iloc_last s = Some last.
Proof.
  intros Hne. destruct s as [|x rest]; [contradiction|].
  exists x. clear Hne. revert x. induction rest as [|y rest IH]; intros x.
  - now exists x.
  - destruct (IH y) as [last [_ Hl]]. exists last. split; [reflexivity|].
    exact Hl.
Qed.

Lemma growth_zero_zero (first last : B64.float) :
  B64.is_zero first = true -> B64.is_zero last = true ->
  format_float (N := binary64)
    (fmul (fsub (fdiv last first) fone) fhundred) = B64.zero.
Proof.
  destruct first, last; simpl; intros Hf Hl; try discriminate. reflexivity.
Qed.

Lemma growth_from_zero (first last : B64.float) :
  B64.is_zero first = true -> B64.is_zero last = false ->
  B64.is_finite last = true ->
  B64.is_inf (format_float (N := binary64)
                (fmul (fsub (fdiv last first) fone) fhundred)) = true.
Proof.
  destruct first as [sf| | |]; simpl; intros Hf; try discriminate.
  destruct last as [sl|sl| |sl ml el]; simpl; intros Hz Hl; try discriminate.
  reflexivity.
Qed.

(** C6 (as amended).  For every non-empty series the growth statistic is
    defined (no division error) and is [(last/first - 1) * 100] passed
    through [format_float]; it is never NaN.  With a first value of zero
    it is 0.0 when the last value is zero too, and an infinity when the
    last value is any other finite number. *)
Theorem growth_statistic (s : list B64.float) :
  s <> [] ->
  exists first last g,
    iloc_first s = Some first /\ iloc_last s = Some last /\
    growth_of (N := binary64) s = Some g /\
    g = format_float (B64.mul (B64.sub (B64.div last first) B64.one) B64.hundred) /\
    B64.is_nan g = false /\
    (B64.is_zero first = true -> B64.is_zero last = true -> g = B64.zero) /\
    (B64.is_zero first = true -> B64.is_zero last = false ->
     B64.is_finite last = true -> B64.is_inf g = true).
Proof.
  intros Hne. destruct (iloc_first_last_some s Hne) as (first & last & Hf & Hl).
  exists first, last. eexists. split; [exact Hf|]. split; [exact Hl|].
  split; [unfold growth_of; rewrite Hf, Hl; reflexivity|].
  split; [reflexivity|]. split; [now apply (@format_float_not_nan _ binary64)|].
  split; [apply growth_zero_zero | apply growth_from_zero].
Qed.

End Growth.

Lemma growth_statistic_witness :
  exists g, growth_of (N := binary64) [B64.zero; B64.zero] = Some g /\ g = B64.zero.
Proof.
  destruct (growth_statistic [B64.zero; B64.zero]) as
    (first & last & g & Hf & Hl & Hg & _ & _ & Hz & _).
  - discriminate.
  - exists g. split; [exact Hg|].
    inversion Hf; inversion Hl; subst. apply Hz; reflexivity.
Defined.

(** Income that starts at zero and ends at five: the growth reported is
    plus infinity. *)
Lemma growth_from_zero_is_infinite :
  exists s,
    generate_schedule (N := binary64) late_start = Ok s /\
    growth (income_stats (monthly_stats (metrics s))) = S754_infinity false /\
    growth (income_stats (monthly_stats (metrics s))) <> B64.zero.
Proof.
  destruct (generate_schedule (N := binary64) late_start) as [s|st e] eqn:E.
  - vm_compute in E. inversion E; subst; clear E.
    eexists. split; [reflexivity|]. simpl. split; [reflexivity | discriminate].
  - vm_compute in E. discriminate.
Qed.

(** ** C5: trend rates *)

Section Trend.




Lemma series_count_all_nan (s : list B64.float) :
  Forall (fun v => B64.is_nan v = true) s -> series_count (N := binary64) s = 0%nat.
Proof.
  induction 1 as [|v rest Hv _ IH]; [reflexivity|].
  unfold series_count in *. cbn [filter fisnan binary64]. now rewrite Hv.
Qed.

Lemma series_mean_all_nan (s : list B64.float) :
  Forall (fun v => B64.is_nan v = true) s ->
  series_mean (N := binary64) s = S754_nan.
Proof.
  intros H. unfold series_mean. now rewrite (series_count_all_nan s H).
Qed.







End Trend.



(** An undefined change is skipped, not propagated: for the series 4, 0, 0
    the changes are -1 and 0/0, and the trend is -100. *)
Lemma trend_skips_undefined_changes :
  trend_rate (N := binary64) [B64.of_Z 4; B64.zero; B64.zero]
  = SFopp B64.hundred.
Proof. vm_compute. reflexivity. Qed.


(** ** C2: savings rates *)

Section SavingsRate.

Lemma savings_rate_idle (row : Row B64.float) :
  B64.is_zero (Total_Income row) = true ->
  B64.is_zero (Fixed_Expenses row) = true ->
  B64.is_nan (Savings_Rate (N := binary64) row) = true.
Proof.
  unfold Savings_Rate, Available_Money.
  destruct (Total_Income row) as [si| | |]; try discriminate.
  destruct (Fixed_Expenses row) as [se| | |]; try discriminate.
  intros _ _. destruct si, se; reflexivity.
Qed.

Lemma savings_rate_no_income (row : Row B64.float) :
  B64.is_zero (Total_Income row) = true ->
  B64.is_zero (Fixed_Expenses row) = false ->
  B64.is_finite (Fixed_Expenses row) = true ->
  B64.is_inf (Savings_Rate (N := binary64) row) = true.
Proof.
  unfold Savings_Rate, Available_Money.
  destruct (Total_Income row) as [si| | |]; try discriminate.
  destruct (Fixed_Expenses row) as [se|se| |se me ee]; try discriminate.
  intros _ _ _. reflexivity.
Qed.

Lemma is_inf_format_float (v : B64.float) :
  B64.is_inf v = true -> B64.is_inf (format_float (N := binary64) v) = true.
Proof. destruct v; simpl; intros H; try discriminate; reflexivity. Qed.

Lemma idle_rates_nan (df : list (Row B64.float)) :
  Forall (fun row => B64.is_zero (Total_Income row) = true /\
                     B64.is_zero (Fixed_Expenses row) = true) df ->
  Forall (fun v => B64.is_nan v = true) (map (Savings_Rate (N := binary64)) df).
Proof.
  intros H. apply Forall_map. eapply Forall_impl; [|exact H].
  intros row [Hi He]. now apply savings_rate_idle.
Qed.

Lemma exact_is_zero_false (a : Qc) : a <> Q2Qc 0 -> Exact.is_zero a = false.
Proof.
  intros H. unfold Exact.is_zero.
  destruct (a ?= Q2Qc 0)%Qc eqn:E; try reflexivity.
  apply Qceq_alt in E. contradiction.
Qed.

Lemma exact_savings_rate (row : Row Exact.xrat) (a b : Qc) :
  Total_Income row = Exact.Fin a -> Fixed_Expenses row = Exact.Fin b ->
  a <> Q2Qc 0 ->
  format_float (Savings_Rate (N := rational) row)
  = Exact.Fin ((a - b) / a * Q2Qc (inject_Z 100))%Qc.
Proof.
  intros Ha Hb Hz. unfold Savings_Rate, Available_Money. rewrite Ha, Hb.
  cbn [fsub fdiv fmul fhundred rational Exact.sub Exact.div Exact.of_Z].
  rewrite (exact_is_zero_false a Hz). reflexivity.
Qed.

Lemma schedule_rate_nth {F : Type} {N : Num F} (df : list (Row F))
      (s : Schedule F) (i : nat) (row : Row F) (r : ScheduleRow F) :
  build_schedule df = Some s ->
  nth_error df i = Some row -> nth_error (data s) i = Some r ->
  savings_rate r = format_float (Savings_Rate row).
Proof.
  intros H Hrow Hr. destruct (build_schedule_fields _ s H) as (Hd & _).
  rewrite Hd in Hr.
  destruct (schedule_loop_nth df fzero i row Hrow) as (r' & Hr' & _ & _ & Hs & _).
  rewrite Hr' in Hr. inversion Hr; subst. exact Hs.
Qed.

End SavingsRate.

(** C2 (as amended).  In exact arithmetic the savings rate of a schedule
    row whose income is not zero is [(income - expenses) / income * 100] of
    the corresponding row of the table.  In floating point the savings rate
    is never NaN; for a row whose income is zero it is 0.0 when the
    expenses are zero as well, and an infinity when the expenses are any
    other finite number; when income and expenses are zero in every row,
    every savings rate and the average savings rate are 0.0. *)
Theorem savings_rate_properties :
  (forall (df : list (Row Exact.xrat)) (s : Schedule Exact.xrat)
          (i : nat) (row : Row Exact.xrat) (r : ScheduleRow Exact.xrat)
          (a b : Qc),
      build_schedule (N := rational) df = Some s ->
      nth_error df i = Some row -> nth_error (data s) i = Some r ->
      Total_Income row = Exact.Fin a -> Fixed_Expenses row = Exact.Fin b ->
      a <> Q2Qc 0 ->
      savings_rate r = Exact.Fin ((a - b) / a * Q2Qc (inject_Z 100))%Qc) /\
  (forall (df : list (Row B64.float)) (s : Schedule B64.float),
      build_schedule (N := binary64) df = Some s ->
      Forall (fun r => B64.is_nan (savings_rate r) = false) (data s)
      /\ (forall i row r,
            nth_error df i = Some row -> nth_error (data s) i = Some r ->
            B64.is_zero (Total_Income row) = true ->
            (B64.is_zero (Fixed_Expenses row) = true ->
             savings_rate r = B64.zero)
            /\ (B64.is_zero (Fixed_Expenses row) = false ->
                B64.is_finite (Fixed_Expenses row) = true ->
                B64.is_inf (savings_rate r) = true))
      /\ (Forall (fun row => B64.is_zero (Total_Income row) = true /\
                             B64.is_zero (Fixed_Expenses row) = true) df ->
          Forall (fun r => savings_rate r = B64.zero) (data s)
          /\ average_savings_rate (metrics s) = B64.zero)).
Proof.
  split.
  - intros df s i row r a b H Hrow Hr Ha Hb Hz.
    rewrite (schedule_rate_nth df s i row r H Hrow Hr).
    now apply exact_savings_rate.
  - intros df s H.
    destruct (build_schedule_fields _ s H) as (Hd & _ & _ & _ & Hr & _).
    assert (Hrates : map savings_rate (data s)
                     = map (fun row => format_float (Savings_Rate row)) df)
      by (rewrite Hd; apply schedule_loop_rates).
    split; [|split].
    + apply Forall_forall. intros r Hin.
      apply (in_map savings_rate) in Hin. rewrite Hrates in Hin.
      apply in_map_iff in Hin. destruct Hin as [row [Hrow _]].
      rewrite <- Hrow. now apply (@format_float_not_nan _ binary64).
    + intros i row r Hrow Hr' Hz.
      rewrite (schedule_rate_nth df s i row r H Hrow Hr'). split.
      * intros He. apply (@format_float_nan _ binary64).
        now apply savings_rate_idle.
      * intros He Hfin. apply is_inf_format_float.
        now apply savings_rate_no_income.
    + intros Hidle. split.
      * apply Forall_forall. intros r Hin.
        apply (in_map savings_rate) in Hin. rewrite Hrates in Hin.
        apply in_map_iff in Hin. destruct Hin as [row [Hrow Hin]].
        rewrite <- Hrow. apply (@format_float_nan _ binary64).
        rewrite Forall_forall in Hidle. destruct (Hidle row Hin).
        now apply savings_rate_idle.
      * rewrite Hr, (series_mean_all_nan _ (idle_rates_nan df Hidle)).
        reflexivity.
Qed.

Lemma savings_rate_properties_witness :
  exists s,
    build_schedule (N := binary64)
      (map (normalize_row (N := binary64) (columns idle)) (rows idle)) = Some s /\
    Forall (fun r => savings_rate r = B64.zero) (data s) /\
    average_savings_rate (metrics s) = B64.zero.
Proof.
  destruct (build_schedule (N := binary64)
              (map (normalize_row (N := binary64) (columns idle)) (rows idle)))
    as [s|] eqn:E.
  - exists s. split; [reflexivity|].
    destruct (proj2 savings_rate_properties _ s E) as (_ & _ & Hidle).
    apply Hidle. vm_compute. repeat constructor.
  - vm_compute in E. discriminate.
Defined.

(** A month with expenses but no income: its savings rate, and the average
    savings rate, are minus infinity. *)
Lemma zero_income_rate_is_infinite :
  exists s r,
    generate_schedule (N := binary64) no_income = Ok s /\
    data s = [r] /\
    savings_rate r = S754_infinity true /\
    savings_rate r <> B64.zero /\
    average_savings_rate (metrics s) = S754_infinity true.
Proof.
  destruct (generate_schedule (N := binary64) no_income) as [s|st e] eqn:E.
  - vm_compute in E. inversion E; subst; clear E.
    eexists. eexists. split; [reflexivity|]. simpl.
    split; [reflexivity|]. split; [reflexivity|].
    split; [discriminate | reflexivity].
  - vm_compute in E. discriminate.
Qed.

(** ** C4: a minus sign that is not leading

    The properties of the normalisation follow the facts about numerals,
    further down. *)

(** A trailing minus sign is kept, the conversion then fails and the cell
    becomes 0.0; keeping only a leading minus sign would give 5. *)
Lemma inner_minus_is_kept :
  str_replace "5-" = "5-"%string /\
  spec_strip "5-" = "5"%string /\
  normalize_cell (N := binary64) "5-" = B64.zero /\
  spec_normalize_cell (N := binary64) "5-" = B64.of_Z 5 /\
  normalize_cell (N := binary64) "5-" <> spec_normalize_cell (N := binary64) "5-".
Proof.
  vm_compute. repeat split; try reflexivity. discriminate.
Qed.

(** ** C8: the best and the worst month *)

Section BestWorst.


End BestWorst.

Section StatsFields.

Context {F : Type} {N : Num F}.

(** What [calculate_monthly_stats] puts in each field. *)
Lemma monthly_stats_fields (df : list (Row F)) (ms : MonthlyStats F) :
  calculate_monthly_stats df = Some ms ->
  growth_of (map Total_Income df) = Some (growth (income_stats ms)) /\
  growth_of (map Fixed_Expenses df) = Some (growth (expense_stats ms)) /\
  mean (income_stats ms) = format_float (series_mean (map Total_Income df)) /\
  mean (expense_stats ms) = format_float (series_mean (map Fixed_Expenses df)) /\
  savings_mean (savings_stats ms)
  = format_float (series_mean (map Available_Money df)) /\
  exists imax imin,
    idxmax (map Available_Money df) = Some imax /\
    idxmin (map Available_Money df) = Some imin /\
    month_at df imax = Some (best_month (savings_stats ms)) /\
    month_at df imin = Some (worst_month (savings_stats ms)).
Proof.
  unfold calculate_monthly_stats, series_stats.
  destruct (growth_of (map Total_Income df)) as [gi|]; [|discriminate].
  destruct (growth_of (map Fixed_Expenses df)) as [ge|]; [|discriminate].
  destruct (idxmax _) as [imax|] eqn:Emax; [|discriminate].
  destruct (idxmin _) as [imin|] eqn:Emin; [|discriminate].
  destruct (month_at df imax) as [b|] eqn:Eb; [|discriminate].
  destruct (month_at df imin) as [w|] eqn:Ew; [|discriminate].
  intros H. inversion H; subst; simpl.
  repeat (split; [reflexivity|]).
  exists imax, imin. repeat split; assumption.
Qed.

End StatsFields.
(** ** The first extreme value of a column *)

Section FirstExtreme.

Context {F : Type} {N : Num F}.

Hypothesis lt_irrefl : forall x : F, fltb x x = false.
Hypothesis le_lt_trans :
  forall a b c : F,
    fisnan a = false -> fisnan b = false -> fisnan c = false ->
    fltb b a = false -> fltb b c = true -> fltb a c = true.
Hypothesis lt_le_trans :
  forall a b c : F,
    fisnan a = false -> fisnan b = false -> fisnan c = false ->
    fltb c b = true -> fltb a b = false -> fltb c a = true.
Hypothesis lt_asym : forall a b : F, fltb a b = true -> fltb b a = false.



Lemma fillna_nothing (fill : F) (a : list F) :
  Forall (fun v => fisnan v = false) a -> map (fillna fill) a = a.
Proof.
  induction 1 as [|v rest Hv _ IH]; [reflexivity|].
  cbn [map]. rewrite IH. unfold fillna. now rewrite Hv.
Qed.




(** A column that holds one value throughout: the search stays at its
    start. *)
Lemma argmax_from_level (a : list F) :
  forall (mp : F) (idx i : nat),
    Forall (fun v => v = mp) a -> argmax_from mp idx i a = idx.
Proof.
  induction a as [|x rest IH]; intros mp idx i H; [reflexivity|].
  inversion H; subst. cbn [argmax_from]. rewrite lt_irrefl. now apply IH.
Qed.

Lemma argmin_from_level (a : list F) :
  forall (mp : F) (idx i : nat),
    Forall (fun v => v = mp) a -> argmin_from mp idx i a = idx.
Proof.
  induction a as [|x rest IH]; intros mp idx i H; [reflexivity|].
  inversion H; subst. cbn [argmin_from]. rewrite lt_irrefl. now apply IH.
Qed.

Lemma level_first (row : Row F) (rest : list (Row F)) (s : Schedule F) :
  build_schedule (row :: rest) = Some s ->
  Forall (fun r => Available_Money r = Available_Money row) rest ->
  best_month (savings_stats (monthly_stats (metrics s))) = Month row /\
  worst_month (savings_stats (monthly_stats (metrics s))) = Month row.
Proof.
  intros H Hlevel.
  destruct (build_schedule_fields _ s H) as (_ & _ & _ & _ & _ & _ & _ & Hms & _).
  destruct (monthly_stats_fields _ _ Hms)
    as (_ & _ & _ & _ & _ & ib & iw & Hib & Hiw & Hmb & Hmw).
  set (v := Available_Money row) in *.
  assert (Hall : Forall (fun x => x = v) (map Available_Money rest))
    by (now apply Forall_map).
  assert (Hv : fisnan v = false).
  { destruct (fisnan v) eqn:E; [|reflexivity].
    unfold idxmax in Hib. cbn [map forallb] in Hib. fold v in Hib.
    rewrite E in Hib. cbn [andb] in Hib.
    assert (Hf : forallb fisnan (map Available_Money rest) = true).
    { apply forallb_forall. intros x Hx. rewrite Forall_forall in Hall.
      now rewrite (Hall x Hx). }
    rewrite Hf in Hib. discriminate. }
  assert (Hfill : forall fill,
             map (fillna fill) (map Available_Money (row :: rest))
             = v :: map Available_Money rest).
  { intros fill. apply fillna_nothing. cbn [map]. fold v.
    constructor; [exact Hv|].
    eapply Forall_impl; [|exact Hall]. intros x Hx. now rewrite Hx. }
  unfold idxmax in Hib. unfold idxmin in Hiw.
  rewrite Hfill in Hib, Hiw.
  cbn [map forallb] in Hib, Hiw. fold v in Hib, Hiw.
  rewrite Hv in Hib, Hiw. cbn [andb] in Hib, Hiw.
  rewrite (argmax_from_level _ v 0 1 Hall) in Hib.
  rewrite (argmin_from_level _ v 0 1 Hall) in Hiw.
  inversion Hib; subst ib. inversion Hiw; subst iw.
  cbn in Hmb, Hmw. split; congruence.
Qed.

End FirstExtreme.

(** The order of the exact numbers. *)
Section ExactOrder.

Lemma exact_ltb_fin (a b : Qc) :
  Exact.ltb (Exact.Fin a) (Exact.Fin b) = true <-> (a < b)%Qc.
Proof.
  cbn [Exact.ltb]. rewrite Qclt_alt. destruct (a ?= b)%Qc; split; congruence.
Qed.

Lemma exact_ltb_fin_false (a b : Qc) :
  Exact.ltb (Exact.Fin a) (Exact.Fin b) = false <-> (b <= a)%Qc.
Proof.
  rewrite <- Bool.not_true_iff_false, exact_ltb_fin. split.
  - apply Qcnot_lt_le.
  - apply Qcle_not_lt.
Qed.

Lemma exact_ltb_irrefl (x : Exact.xrat) : Exact.ltb x x = false.
Proof.
  destruct x as [|[]|q]; try reflexivity.
  apply exact_ltb_fin_false. apply Qcle_refl.
Qed.




End ExactOrder.





(** * Further properties of the engine *)

(** ** The answers of the route *)

Section Outcomes.

Context {F : Type} {N : Num F}.

Lemma iloc_last_map {A B : Type} (f : A -> B) (l : list A) :
  iloc_last (map f l) = option_map f (iloc_last l).
Proof.
  induction l as [|x [|y rest] IH]; try reflexivity.
  exact IH.
Qed.



End Outcomes.


(** ** Months, completion date and payments *)

(** X2.  The metrics count one month per row of the file and per row of
    the schedule, and the completion date is the Date cell of the last row
    of the file, which is also the date of the last schedule row. *)
Theorem months_and_completion {F : Type} {N : Num F}
    (df : CsvFrame) (s : Schedule F) :
  generate_schedule (N := N) df = Ok s ->
  total_months (metrics s) = List.length (rows df)
  /\ List.length (data s) = total_months (metrics s)
  /\ exists cells last,
       iloc_last (rows df) = Some cells /\
       iloc_last (data s) = Some last /\
       completion_date (metrics s) = cell (columns df) cells "Date" /\
       date last = completion_date (metrics s).
Proof.
  intros H. apply generate_schedule_ok_columns in H. destruct H as [_ H].
  destruct (build_schedule_fields _ s H) as (Hd & _ & _ & _ & _ & _ & _ & _ & Hm).
  rewrite length_map in Hm.
  assert (Hlen : List.length (data s) = List.length (rows df))
    by (rewrite Hd, schedule_loop_length; apply length_map).
  split; [exact Hm|]. split; [congruence|].
  unfold build_schedule in H.
  destruct (calculate_monthly_stats _) as [ms|]; [|discriminate].
  destruct (iloc_last (map Date _)) as [d|] eqn:Ed; [|discriminate].
  inversion H; subst s; clear H. cbn [metrics completion_date data] in *.
  rewrite map_map, iloc_last_map in Ed.
  destruct (iloc_last (rows df)) as [cells|] eqn:Ec; [|discriminate].
  cbn [option_map] in Ed. inversion Ed; subst d; clear Ed.
  assert (Hl : option_map date
                 (iloc_last (schedule_loop fzero
                               (map (normalize_row (columns df)) (rows df))))
               = Some (cell (columns df) cells "Date")).
  { rewrite <- iloc_last_map, schedule_loop_dates, map_map, iloc_last_map, Ec.
    reflexivity. }
  destruct (iloc_last (schedule_loop fzero _)) as [last|]; [|discriminate].
  exists cells, last. cbn [option_map] in Hl. inversion Hl.
  repeat split; reflexivity.
Qed.

Lemma months_and_completion_witness :
  exists s, generate_schedule (N := binary64) quarter = Ok s /\
            total_months (metrics s) = 3%nat /\
            completion_date (metrics s) = "2023-03-01"%string.
Proof.
  destruct (generate_schedule (N := binary64) quarter) as [s|st e] eqn:E.
  - exists s. split; [reflexivity|].
    destruct (months_and_completion quarter s E)
      as (Hm & _ & cells & last & Hc & _ & Hd & _).
    split; [exact Hm|]. rewrite Hd. vm_compute in Hc. inversion Hc. reflexivity.
  - vm_compute in E. discriminate.
Defined.

Section Payments.

Lemma fold_left_nan (a : list B64.float) :
  fold_left (@fadd _ binary64) a S754_nan = S754_nan.
Proof. induction a as [|x rest IH]; [reflexivity | exact IH]. Qed.

Lemma is_nan_eq (v : B64.float) : B64.is_nan v = true -> v = S754_nan.
Proof. destruct v; simpl; intros H; try discriminate; reflexivity. Qed.

Lemma firstn_plus {A : Type} (n m : nat) :
  forall l : list A, firstn (n + m) l = firstn n l ++ firstn m (skipn n l).
Proof.
  induction n as [|n IH]; intros l; [reflexivity|].
  destruct l as [|x rest]; simpl.
  - now rewrite firstn_nil.
  - now rewrite IH.
Qed.

End Payments.

Section ExactPayments.

Lemma schedule_payment_nth {F : Type} {N : Num F} (df : list (Row F))
      (s : Schedule F) (i : nat) (row : Row F) (r : ScheduleRow F) :
  build_schedule df = Some s ->
  nth_error df i = Some row -> nth_error (data s) i = Some r ->
  payment r = format_float (Available_Money row) /\ date r = Date row.
Proof.
  intros H Hrow Hr. destruct (build_schedule_fields _ s H) as (Hd & _).
  rewrite Hd in Hr.
  destruct (schedule_loop_nth df fzero i row Hrow) as (r' & Hr' & Hdate & Hp & _).
  rewrite Hr' in Hr. inversion Hr; subst. now split.
Qed.

End ExactPayments.

(** X3.  Nothing clamps or guards a payment.  In exact arithmetic the
    payment of schedule row [i] is the income of row [i] less its expenses,
    negative when the expenses exceed the income; on a table of moderate
    numbers it is their binary64 difference. *)
Theorem payments_are_differences :
  (forall (df : list (Row Exact.xrat)) (s : Schedule Exact.xrat) (i : nat)
          (row : Row Exact.xrat) (r : ScheduleRow Exact.xrat) (a b : Qc),
      build_schedule (N := rational) df = Some s ->
      nth_error df i = Some row -> nth_error (data s) i = Some r ->
      Total_Income row = Exact.Fin a -> Fixed_Expenses row = Exact.Fin b ->
      payment r = Exact.Fin (a - b)%Qc) /\
  (forall (df : list (Row B64.float)) (s : Schedule B64.float) (i : nat)
          (row : Row B64.float) (r : ScheduleRow B64.float),
      build_schedule (N := binary64) df = Some s ->
      nth_error df i = Some row -> nth_error (data s) i = Some r ->
      moderate_row row ->
      payment r = B64.sub (Total_Income row) (Fixed_Expenses row)).
Proof.
  split.
  - intros df s i row r a b H Hrow Hr Ha Hb.
    destruct (schedule_payment_nth df s i row r H Hrow Hr) as [Hp _].
    rewrite Hp. unfold Available_Money. rewrite Ha, Hb. reflexivity.
  - intros df s i row r H Hrow Hr [Hi He].
    destruct (schedule_payment_nth df s i row r H Hrow Hr) as [Hp _].
    rewrite Hp. apply (@format_float_id _ binary64).
    unfold moderate in Hi, He. apply andb_prop in Hi, He.
    destruct Hi as [Hi _]. destruct He as [He _].
    now apply sub_finite_not_nan.
Qed.

Lemma payments_are_differences_witness :
  exists s r,
    build_schedule (N := rational)
      [ {| Month := "Jan"; Date := "2023-01-01";
           Total_Income := Exact.of_Z 400; Fixed_Expenses := Exact.of_Z 1000 |} ]%string
    = Some s /\
    nth_error (data s) 0 = Some r /\
    payment r = Exact.Fin (Q2Qc (inject_Z 400) - Q2Qc (inject_Z 1000))%Qc.
Proof.
  destruct (build_schedule (N := rational)
      [ {| Month := "Jan"; Date := "2023-01-01";
           Total_Income := Exact.of_Z 400; Fixed_Expenses := Exact.of_Z 1000 |} ]%string)
    as [s|] eqn:E; [|discriminate].
  destruct (nth_error (data s) 0) as [r|] eqn:Er.
  - exists s, r. split; [reflexivity|]. split; [exact Er|].
    exact (proj1 payments_are_differences _ s 0%nat _ r _ _ E eq_refl Er
                 eq_refl eq_refl).
  - destruct (build_schedule_fields _ s E) as (Hd & _). rewrite Hd in Er.
    discriminate.
Defined.

(** X4.  The running balance itself is never guarded, only the value
    reported: once the sum of the payments so far is undefined (NaN, from
    adding opposite infinities), the balance of that row and of every
    later row is reported as 0.0. *)
Theorem balance_stays_undefined (df : list (Row B64.float))
    (s : Schedule B64.float) (i : nat) :
  build_schedule (N := binary64) df = Some s ->
  B64.is_nan (fold_left B64.add (map payment (firstn (S i) (data s))) B64.zero)
  = true ->
  forall j r, (i <= j)%nat -> nth_error (data s) j = Some r ->
              remaining_balance r = B64.zero.
Proof.
  intros H Hnan j r Hij Hr.
  destruct (build_schedule_fields _ s H) as (Hd & _).
  assert (Hrow : exists row, nth_error df j = Some row).
  { destruct (nth_error df j) as [row|] eqn:E; [now exists row|].
    apply nth_error_None in E.
    assert (Hj : (j < List.length (data s))%nat)
      by (apply nth_error_Some; rewrite Hr; discriminate).
    rewrite Hd, schedule_loop_length in Hj. lia. }
  destruct Hrow as [row Hrow].
  destruct (schedule_loop_nth df fzero j row Hrow) as (r' & Hr' & _ & _ & _ & Hb).
  rewrite Hd, Hr' in Hr. inversion Hr; subst r'. rewrite Hb.
  apply (@format_float_nan _ binary64).
  rewrite <- firstn_map, <- (schedule_loop_payments df fzero), <- Hd.
  rewrite <- firstn_map in Hnan.
  set (L := map payment (data s)) in *.
  replace (firstn (S j) L)
    with (firstn (S i) L ++ firstn (j - i) (skipn (S i) L)).
  - rewrite fold_left_app.
    change (fold_left fadd (firstn (S i) L) fzero)
      with (fold_left B64.add (firstn (S i) L) B64.zero).
    rewrite (is_nan_eq _ Hnan). now rewrite fold_left_nan.
  - replace (S j) with (S i + (j - i))%nat by lia.
    symmetry. apply firstn_plus.
Qed.

Lemma balance_stays_undefined_witness :
  exists s, build_schedule (N := binary64) overflowing = Some s /\
            forall r, nth_error (data s) 2 = Some r ->
                      remaining_balance r = B64.zero.
Proof.
  destruct (build_schedule (N := binary64) overflowing) as [s|] eqn:E.
  - exists s. split; [reflexivity|]. intros r Hr.
    apply (balance_stays_undefined overflowing s 1 E) with (j := 2%nat);
      [|lia|exact Hr].
    vm_compute in E. inversion E. reflexivity.
  - vm_compute in E. discriminate.
Defined.

(** ** Landmarks of the savings rate *)

Section Landmarks.

Lemma rate_without_expenses (row : Row B64.float) :
  B64.is_finite (Total_Income row) = true ->
  B64.is_zero (Total_Income row) = false ->
  B64.is_zero (Fixed_Expenses row) = true ->
  format_float (Savings_Rate (N := binary64) row) = B64.hundred.
Proof.
  unfold Savings_Rate, Available_Money.
  destruct (Total_Income row) as [si|si| |si mi ei]; try discriminate.
  destruct (Fixed_Expenses row) as [se| | |]; try discriminate.
  intros _ _ _. cbn [fsub fdiv fmul fhundred binary64].
  change (B64.sub (S754_finite si mi ei) (S754_zero se))
    with (S754_finite si mi ei).
  rewrite div_self. reflexivity.
Qed.

End Landmarks.

(** X5.  A row without expenses whose income is a finite number other than
    zero has a savings rate of exactly 100.0. *)
Theorem savings_rate_without_expenses (df : list (Row B64.float))
    (s : Schedule B64.float) (i : nat) (row : Row B64.float)
    (r : ScheduleRow B64.float) :
  build_schedule (N := binary64) df = Some s ->
  nth_error df i = Some row -> nth_error (data s) i = Some r ->
  B64.is_finite (Total_Income row) = true ->
  B64.is_zero (Total_Income row) = false ->
  B64.is_zero (Fixed_Expenses row) = true ->
  savings_rate r = B64.hundred.
Proof.
  intros H Hrow Hr Hf Hz He.
  rewrite (schedule_rate_nth df s i row r H Hrow Hr).
  now apply rate_without_expenses.
Qed.

Lemma savings_rate_without_expenses_witness :
  exists s r,
    build_schedule (N := binary64) overflowing = Some s /\
    nth_error (data s) 2 = Some r /\
    savings_rate r = B64.hundred.
Proof.
  destruct (build_schedule (N := binary64) overflowing) as [s|] eqn:E;
    [|vm_compute in E; discriminate].
  destruct (nth_error (data s) 2) as [r|] eqn:Er.
  - exists s, r. split; [reflexivity|]. split; [exact Er|].
    apply (savings_rate_without_expenses overflowing s 2%nat _ r E eq_refl Er);
      reflexivity.
  - destruct (build_schedule_fields _ s E) as (Hd & _). rewrite Hd in Er.
    discriminate.
Defined.

(** ** Series that end where they start, and files of one row *)

Section Endpoints.

Lemma growth_value_same (x : B64.float) :
  B64.is_nan x = false ->
  format_float (N := binary64)
    (fmul (fsub (fdiv x x) fone) fhundred) = B64.zero.
Proof.
  destruct x as [sx|sx| |sx mx ex]; try discriminate; intros _;
    try reflexivity.
  cbn [fdiv binary64]. rewrite div_self. reflexivity.
Qed.

End Endpoints.



(** X6.  A series whose last value is its first value has growth 0.0,
    whatever that value is (zero and the infinities included, where the
    quotient is undefined and the guard answers 0.0). *)
Theorem growth_same_endpoints (s : list B64.float) (x : B64.float) :
  iloc_first s = Some x -> iloc_last s = Some x -> B64.is_nan x = false ->
  growth_of (N := binary64) s = Some B64.zero.
Proof.
  intros Hf Hl Hx. unfold growth_of. rewrite Hf, Hl.
  now rewrite growth_value_same.
Qed.

Lemma growth_same_endpoints_witness :
  growth_of (N := binary64) [B64.hundred; B64.one; B64.hundred] = Some B64.zero.
Proof.
  apply (growth_same_endpoints _ B64.hundred); reflexivity.
Defined.

(** ** A single row *)

Section SingleRow.

Lemma growth_single (x : B64.float) :
  growth_of (N := binary64) [x] = Some B64.zero.
Proof.
  unfold growth_of. cbn [iloc_last iloc_first hd_error]. f_equal.
  destruct x as [sx|sx| |sx mx ex]; try reflexivity.
  cbn [fdiv binary64]. rewrite div_self. reflexivity.
Qed.

End SingleRow.

(** X7.  The schedule of a table of a single row has one row, with that
    row's date; both growth figures and both trends are 0.0, the best and
    the worst month are that row's month, and the completion date is its
    date. *)
Theorem single_row_schedule (row : Row B64.float) (s : Schedule B64.float) :
  build_schedule (N := binary64) [row] = Some s ->
  (exists r, data s = [r] /\ date r = Date row) /\
  total_months (metrics s) = 1%nat /\
  completion_date (metrics s) = Date row /\
  growth (income_stats (monthly_stats (metrics s))) = B64.zero /\
  growth (expense_stats (monthly_stats (metrics s))) = B64.zero /\
  income_trend (trends (metrics s)) = B64.zero /\
  expense_trend (trends (metrics s)) = B64.zero /\
  best_month (savings_stats (monthly_stats (metrics s))) = Month row /\
  worst_month (savings_stats (monthly_stats (metrics s))) = Month row.
Proof.
  intros H.
  destruct (build_schedule_fields _ s H)
    as (Hd & _ & _ & _ & _ & _ & Htr & Hms & Hn).
  destruct (monthly_stats_fields _ _ Hms) as (Hgi & Hge & _).
  destruct (level_first (N := binary64) ltb_irrefl row [] s H (Forall_nil _))
    as [Hb Hw].
  split; [|split; [exact Hn|split]].
  - rewrite Hd. cbn [schedule_loop]. eexists. split; reflexivity.
  - unfold build_schedule in H.
    destruct (calculate_monthly_stats [row]); [|discriminate].
    cbn [map iloc_last] in H. inversion H; subst. reflexivity.
  - cbn [map] in Hgi, Hge. rewrite growth_single in Hgi, Hge.
    inversion Hgi. inversion Hge. rewrite Htr.
    repeat split; try reflexivity; assumption.
Qed.

Lemma single_row_schedule_witness :
  exists s,
    build_schedule (N := binary64)
      (map (normalize_row (N := binary64) (columns one_month)) (rows one_month))
    = Some s /\
    best_month (savings_stats (monthly_stats (metrics s))) = "Jan"%string /\
    growth (income_stats (monthly_stats (metrics s))) = B64.zero.
Proof.
  destruct (build_schedule (N := binary64)
              (map (normalize_row (N := binary64) (columns one_month))
                   (rows one_month))) as [s|] eqn:E;
    [|vm_compute in E; discriminate].
  exists s. split; [reflexivity|].
  destruct (single_row_schedule _ s E) as (_ & _ & _ & Hg & _ & _ & _ & Hb & _).
  split; [exact Hb|exact Hg].
Defined.

(** ** Ties *)

(** X8.  When every row has the same available money, the best month and
    the worst month are both the month of the first row: on every table of
    64-bit integers, compared exactly, and on every table of moderate
    numbers, compared as binary64 numbers. *)
Theorem level_months_tie :
  (forall (row : Row Exact.xrat) (rest : list (Row Exact.xrat))
          (s : Schedule Exact.xrat),
      build_schedule (N := rational) (row :: rest) = Some s ->
      Forall int64_row (row :: rest) ->
      Forall (fun r => Available_Money r = Available_Money row) rest ->
      best_month (savings_stats (monthly_stats (metrics s))) = Month row /\
      worst_month (savings_stats (monthly_stats (metrics s))) = Month row) /\
  (forall (row : Row B64.float) (rest : list (Row B64.float))
          (s : Schedule B64.float),
      build_schedule (N := binary64) (row :: rest) = Some s ->
      Forall moderate_row (row :: rest) ->
      Forall (fun r => Available_Money r = Available_Money row) rest ->
      best_month (savings_stats (monthly_stats (metrics s))) = Month row /\
      worst_month (savings_stats (monthly_stats (metrics s))) = Month row).
Proof.
  split.
  - intros row rest s H _. now apply (level_first (N := rational) exact_ltb_irrefl).
  - intros row rest s H _. now apply (level_first (N := binary64) ltb_irrefl).
Qed.

Lemma level_months_tie_witness :
  exists s,
    build_schedule (N := binary64)
      (map (normalize_row (N := binary64) (columns level)) (rows level))
    = Some s /\
    best_month (savings_stats (monthly_stats (metrics s))) = "Jan"%string /\
    worst_month (savings_stats (monthly_stats (metrics s))) = "Jan"%string.
Proof.
  destruct (build_schedule (N := binary64)
              (map (normalize_row (N := binary64) (columns level)) (rows level)))
    as [s|] eqn:E; [|vm_compute in E; discriminate].
  exists s. split; [reflexivity|].
  apply (proj2 level_months_tie _ _ s E).
  - vm_compute. repeat constructor.
  - vm_compute. repeat constructor.
Defined.

(** ** Means and the overall savings rate in exact arithmetic *)

Section ExactMeans.

Local Open Scope Qc_scope.

Lemma compare_inject_Z (z : Z) :
  (Q2Qc (inject_Z z) ?= Q2Qc 0) = (z ?= 0)%Z.
Proof.
  unfold Qccompare, Q2Qc. cbn [this]. rewrite <- Qred_compare.
  unfold Qcompare, inject_Z. cbn [Qnum Qden]. now rewrite Z.mul_1_r.
Qed.

Lemma count_not_zero (n : nat) :
  (0 < n)%nat -> Exact.is_zero (Q2Qc (inject_Z (Z.of_nat n))) = false.
Proof.
  intros Hn. unfold Exact.is_zero. rewrite compare_inject_Z.
  destruct (Z.compare_spec (Z.of_nat n) 0); try reflexivity. lia.
Qed.

Lemma is_zero_eq (q : Qc) : Exact.is_zero q = false -> q <> 0.
Proof.
  unfold Exact.is_zero. intros H Hq. subst q.
  rewrite (proj1 (Qceq_alt _ _) eq_refl) in H. discriminate.
Qed.

Lemma series_count_fin (qs : list Qc) :
  series_count (N := rational) (map Exact.Fin qs) = List.length qs.
Proof.
  unfold series_count. induction qs as [|q qs IH]; [reflexivity|].
  cbn [map filter fisnan rational Exact.is_nan negb List.length]. now f_equal.
Qed.

(** The mean of finite values times their number is their sum. *)
Lemma series_mean_fin (qs : list Qc) :
  qs <> [] ->
  exists m,
    series_mean (N := rational) (map Exact.Fin qs) = Exact.Fin m /\
    m * Q2Qc (inject_Z (Z.of_nat (List.length qs))) = Exact.qsum qs.
Proof.
  intros Hne. unfold series_mean. rewrite series_count_fin, series_sum_fin.
  assert (Hlen : (0 < List.length qs)%nat)
    by (destruct qs; [contradiction | simpl; lia]).
  apply Nat.ltb_lt in Hlen. rewrite Hlen. apply Nat.ltb_lt in Hlen.
  cbn [fdiv of_count rational Exact.div Exact.of_Z].
  pose proof (count_not_zero _ Hlen) as Hz. rewrite Hz.
  eexists. split; [reflexivity|].
  field. now apply is_zero_eq.
Qed.

End ExactMeans.

Section ExactTotals.

Local Open Scope Qc_scope.

Lemma exact_totals (df : list (Row Exact.xrat)) (s : Schedule Exact.xrat) :
  build_schedule df = Some s -> Forall exact_row df ->
  total_amount (metrics s) = Exact.Fin (Exact.qsum (map available df)) /\
  total_income (metrics s)
  = Exact.Fin (Exact.qsum (map (fun row => Exact.value (Total_Income row)) df)) /\
  total_expenses (metrics s)
  = Exact.Fin (Exact.qsum (map (fun row => Exact.value (Fixed_Expenses row)) df)).
Proof.
  intros H Hfin.
  destruct (build_schedule_fields _ s H) as (_ & Ht & Hi & He & _).
  rewrite Ht, Hi, He.
  rewrite (exact_available df Hfin), (exact_incomes df Hfin),
    (exact_expenses df Hfin), !series_sum_fin.
  repeat split; reflexivity.
Qed.

Lemma exact_mean (qs : list Qc) :
  qs <> [] ->
  fmul (format_float (series_mean (N := rational) (map Exact.Fin qs)))
       (of_count (List.length qs))
  = Exact.Fin (Exact.qsum qs).
Proof.
  intros Hne. destruct (series_mean_fin qs Hne) as (m & Hm & Hq).
  rewrite Hm. cbn. f_equal. exact Hq.
Qed.

End ExactTotals.

(** X9.  In exact arithmetic every mean the metrics report, multiplied by
    the number of months, is the corresponding total: the average payment
    gives the total amount, the mean income the total income, the mean
    expenses the total expenses; and the mean of the savings statistics is
    the average payment. *)
Theorem means_match_totals (df : CsvFrame) (s : Schedule Exact.xrat) :
  generate_schedule (N := rational) df = Ok s ->
  let n := of_count (total_months (metrics s)) in
  fmul (average_payment (metrics s)) n = total_amount (metrics s) /\
  fmul (mean (income_stats (monthly_stats (metrics s)))) n
  = total_income (metrics s) /\
  fmul (mean (expense_stats (monthly_stats (metrics s)))) n
  = total_expenses (metrics s) /\
  savings_mean (savings_stats (monthly_stats (metrics s)))
  = average_payment (metrics s).
Proof.
  intros H n. apply generate_schedule_ok_columns in H. destruct H as [_ H].
  set (table := map (normalize_row (N := rational) (columns df)) (rows df)) in *.
  pose proof (table_exact df) as Hfin. fold table in Hfin.
  pose proof (build_schedule_nonempty table s H) as Hne.
  destruct (exact_totals table s H Hfin) as (Ht & Hi & He).
  destruct (build_schedule_fields _ s H)
    as (_ & _ & _ & _ & _ & Hp & _ & Hms & Hm).
  destruct (monthly_stats_fields _ _ Hms) as (_ & _ & Hmi & Hme & Hsm & _).
  assert (Hmap : forall (f : Row Exact.xrat -> Qc), map f table <> [])
    by (intros f; destruct table; [contradiction | discriminate]).
  assert (Hlen : forall (f : Row Exact.xrat -> Qc),
             List.length (map f table) = total_months (metrics s))
    by (intros f; now rewrite length_map, Hm).
  unfold n. split; [|split; [|split]].
  - rewrite Hp, Ht, (exact_available table Hfin), <- (Hlen available).
    apply exact_mean, Hmap.
  - rewrite Hmi, Hi, (exact_incomes table Hfin),
      <- (Hlen (fun row => Exact.value (Total_Income row))).
    apply exact_mean, Hmap.
  - rewrite Hme, He, (exact_expenses table Hfin),
      <- (Hlen (fun row => Exact.value (Fixed_Expenses row))).
    apply exact_mean, Hmap.
  - now rewrite Hsm, Hp.
Qed.

Lemma means_match_totals_witness :
  exists s, generate_schedule (N := rational) quarter = Ok s /\
            fmul (average_payment (metrics s)) (of_count (total_months (metrics s)))
            = total_amount (metrics s).
Proof.
  destruct (generate_schedule (N := rational) quarter) as [s|st e] eqn:E.
  - exists s. split; [reflexivity|].
    exact (proj1 (means_match_totals quarter s E)).
  - vm_compute in E. discriminate.
Defined.

(** X10.  In exact arithmetic the overall savings rate of the trends is
    the ratio of the two reported totals: total amount over total income,
    times 100, passed through [format_float]. *)
Theorem overall_savings_rate (df : CsvFrame) (s : Schedule Exact.xrat) :
  generate_schedule (N := rational) df = Ok s ->
  trends_savings_rate (trends (metrics s))
  = format_float
      (fmul (fdiv (total_amount (metrics s)) (total_income (metrics s)))
            fhundred).
Proof.
  intros H. apply generate_schedule_ok_columns in H. destruct H as [_ H].
  pose proof (table_exact df) as Hfin.
  destruct (build_schedule_fields _ s H) as (_ & Ht & Hi & _ & _ & _ & Htr & _).
  rewrite Htr, Ht, Hi. cbn [calculate_trends trends_savings_rate].
  rewrite (exact_available _ Hfin), (exact_incomes _ Hfin), !series_sum_fin.
  reflexivity.
Qed.

Lemma overall_savings_rate_witness :
  exists s, generate_schedule (N := rational) quarter = Ok s /\
            trends_savings_rate (trends (metrics s))
            = format_float
                (fmul (fdiv (total_amount (metrics s)) (total_income (metrics s)))
                      fhundred).
Proof.
  destruct (generate_schedule (N := rational) quarter) as [s|st e] eqn:E.
  - exists s. split; [reflexivity|]. exact (overall_savings_rate quarter s E).
  - vm_compute in E. discriminate.
Defined.

(** ** What the route reads of a file *)

Section ColumnsRead.

Context {F : Type} {N : Num F}.

Lemma missing_columns_ext (df1 df2 : CsvFrame) :
  (forall name, In name required_columns ->
                (In name (columns df1) <-> In name (columns df2))) ->
  missing_columns df1 = missing_columns df2.
Proof.
  intros H. unfold missing_columns. apply filter_ext_in. intros name Hin.
  f_equal. destruct (H name Hin) as [H12 H21].
  destruct (existsb (String.eqb name) (columns df1)) eqn:E1;
    destruct (existsb (String.eqb name) (columns df2)) eqn:E2; try reflexivity.
  - apply existsb_eqb_In in E1. apply H12, existsb_eqb_In in E1. congruence.
  - apply existsb_eqb_In in E2. apply H21, existsb_eqb_In in E2. congruence.
Qed.

Lemma normalize_row_ext (cols1 cols2 : list string) (r1 r2 : list string) :
  (forall name, In name required_columns ->
                cell cols1 r1 name = cell cols2 r2 name) ->
  normalize_row (N := N) cols1 r1 = normalize_row cols2 r2.
Proof.
  intros H. unfold normalize_row.
  rewrite (H "Month"%string), (H "Date"%string), (H "Total Income"%string),
    (H "Fixed Expenses"%string); [reflexivity| | | |];
    unfold required_columns; simpl; tauto.
Qed.

(** X11.  The route reads nothing of a file but the presence of the four
    required columns and, row by row, the cells under them: two files that
    agree on these are answered alike, whatever their other columns and
    the order of their columns. *)
Theorem only_required_columns_read (df1 df2 : CsvFrame) :
  (forall name, In name required_columns ->
                (In name (columns df1) <-> In name (columns df2))) ->
  Forall2 (fun r1 r2 =>
             forall name, In name required_columns ->
                          cell (columns df1) r1 name = cell (columns df2) r2 name)
          (rows df1) (rows df2) ->
  generate_schedule (N := N) df1 = generate_schedule (N := N) df2.
Proof.
  intros Hcols Hrows. unfold generate_schedule.
  rewrite (missing_columns_ext df1 df2 Hcols).
  assert (Htable : map (normalize_row (N := N) (columns df1)) (rows df1)
                   = map (normalize_row (N := N) (columns df2)) (rows df2)).
  { induction Hrows as [|r1 r2 l1 l2 Hr _ IH]; [reflexivity|].
    cbn [map]. now rewrite IH, (normalize_row_ext _ _ _ _ Hr). }
  now rewrite Htable.
Qed.

End ColumnsRead.

Lemma only_required_columns_read_witness :
  generate_schedule (N := binary64) quarter_shuffled
  = generate_schedule (N := binary64) quarter.
Proof.
  apply only_required_columns_read.
  - intros name [H|[H|[H|[H|[]]]]]; subst name; simpl; tauto.
  - repeat constructor;
      intros name [H|[H|[H|[H|[]]]]]; subst name; reflexivity.
Defined.

(** ** Cleaning a cell *)

Section Cleaning.

Context {F : Type} {N : Num F}.

Lemma str_replace_app (s1 s2 : string) :
  str_replace (s1 ++ s2) = (str_replace s1 ++ str_replace s2)%string.
Proof.
  induction s1 as [|c t IH]; simpl; [reflexivity|].
  destruct (numeric_char c); simpl; now rewrite IH.
Qed.

Lemma str_replace_keeps (s : string) :
  Forall (fun c => numeric_char c = true) (list_ascii_of_string (str_replace s)).
Proof.
  rewrite str_replace_chars. apply Forall_forall. intros c Hc.
  now apply filter_In in Hc.
Qed.

Lemma str_replace_clean (s : string) :
  Forall (fun c => numeric_char c = true) (list_ascii_of_string s) ->
  str_replace s = s.
Proof.
  induction s as [|c t IH]; simpl; intros H; [reflexivity|].
  inversion H; subst. rewrite H2. now rewrite IH.
Qed.

(** X12.  A character that is neither a digit, a point nor a minus sign
    is ignored wherever it stands in a cell (a currency symbol, a comma, a
    space, a letter), and cleaning a cleaned cell changes nothing. *)
Theorem non_numeric_ignored (s1 s2 : string) (c : ascii) :
  numeric_char c = false ->
  normalize_cell (N := N) (s1 ++ String c s2) = normalize_cell (s1 ++ s2)
  /\ str_replace (str_replace (s1 ++ String c s2)) = str_replace (s1 ++ s2).
Proof.
  intros Hc.
  assert (E : str_replace (s1 ++ String c s2) = str_replace (s1 ++ s2)).
  { rewrite !str_replace_app. cbn [str_replace]. now rewrite Hc. }
  split.
  - unfold normalize_cell. now rewrite E.
  - rewrite E. apply str_replace_clean, str_replace_keeps.
Qed.

End Cleaning.

Lemma non_numeric_ignored_witness :
  normalize_cell (N := binary64) "1,200" = normalize_cell (N := binary64) "1200".
Proof.
  exact (proj1 (non_numeric_ignored (N := binary64) "1" "200" ","%char eq_refl)).
Defined.

(** ** The texts the conversion accepts *)

Section Numerals.

Lemma digit_char_code (d : nat) :
  (d < 10)%nat -> nat_of_ascii (digit_char d) = (48 + d)%nat.
Proof. intros H. unfold digit_char. apply nat_ascii_embedding. lia. Qed.

Lemma digit_char_is_digit (d : nat) :
  (d < 10)%nat -> is_digit (digit_char d) = true.
Proof.
  intros H. unfold is_digit. rewrite (digit_char_code d H).
  apply andb_true_intro. split; apply Nat.leb_le; lia.
Qed.

Lemma digit_char_value (d : nat) :
  (d < 10)%nat -> digit_value (digit_char d) = N.of_nat d.
Proof.
  intros H. unfold digit_value. rewrite (digit_char_code d H).
  f_equal. lia.
Qed.

Lemma is_digit_char (c : ascii) :
  is_digit c = true ->
  exists d, (d < 10)%nat /\ c = digit_char d.
Proof.
  unfold is_digit. intros H. apply andb_prop in H. destruct H as [H1 H2].
  apply Nat.leb_le in H1, H2. exists (nat_of_ascii c - 48)%nat.
  split; [lia|]. unfold digit_char.
  replace (48 + (nat_of_ascii c - 48))%nat with (nat_of_ascii c) by lia.
  symmetry. apply ascii_nat_embedding.
Qed.

Lemma digits_value_app (ds1 ds2 : list nat) :
  forall acc, digits_value acc (ds1 ++ ds2) = digits_value (digits_value acc ds1) ds2.
Proof. induction ds1 as [|d ds1 IH]; intros acc; simpl; [|rewrite IH]; reflexivity. Qed.

Lemma read_digits_run (ds : list nat) :
  forall (acc : N) (cnt : nat) (rest : string),
    Forall (fun d => (d < 10)%nat) ds -> stops rest ->
    read_digits (digits_text ds ++ rest) acc cnt
    = (digits_value acc ds, (cnt + List.length ds)%nat, rest).
Proof.
  induction ds as [|d ds IH]; intros acc cnt rest Hds Hrest.
  - cbn [digits_text map string_of_list_ascii append digits_value List.length].
    rewrite Nat.add_0_r. destruct rest as [|c t]; [reflexivity|].
    simpl in Hrest. cbn [read_digits]. now rewrite Hrest.
  - inversion Hds; subst.
    cbn [digits_text map string_of_list_ascii append read_digits digits_value
         List.length].
    rewrite (digit_char_is_digit d) by assumption.
    rewrite (digit_char_value d) by assumption.
    fold (digits_text ds). rewrite IH by assumption. f_equal. f_equal. lia.
Qed.

Lemma read_digits_inv (s : string) :
  forall (acc : N) (cnt : nat),
  exists ds rest,
    s = (digits_text ds ++ rest)%string /\
    Forall (fun d => (d < 10)%nat) ds /\ stops rest /\
    read_digits s acc cnt = (digits_value acc ds, (cnt + List.length ds)%nat, rest).
Proof.
  induction s as [|c t IH]; intros acc cnt.
  - exists [], EmptyString. repeat split; try constructor.
    cbn. now rewrite Nat.add_0_r.
  - destruct (is_digit c) eqn:E.
    + destruct (is_digit_char c E) as (d & Hd & Hc).
      destruct (IH (10 * acc + digit_value c)%N (S cnt))
        as (ds & rest & Hs & Hds & Hrest & Hread).
      exists (d :: ds), rest. subst c.
      split; [cbn; now rewrite Hs|]. split; [now constructor|].
      split; [assumption|].
      cbn [read_digits]. rewrite E, Hread.
      cbn [digits_value List.length]. rewrite (digit_char_value d Hd).
      f_equal. f_equal. lia.
    + exists [], (String c t). split; [reflexivity|]. split; [constructor|].
      split; [exact E|]. cbn [read_digits]. rewrite E. cbn.
      now rewrite Nat.add_0_r.
Qed.

Lemma digits_text_stops (ds : list nat) (rest : string) :
  Forall (fun d => (d < 10)%nat) ds -> stops rest ->
  forall c t, (digits_text ds ++ rest)%string = String c t ->
              Ascii.eqb c "-"%char = false \/ (ds = [] /\ rest = String c t).
Proof.
  intros Hds Hrest c t E. destruct ds as [|d ds].
  - right. split; [reflexivity|exact E].
  - left. inversion Hds as [|d' ds' Hd Hds']; subst.
    cbn [digits_text map string_of_list_ascii append] in E.
    injection E as Ec _. subst c.
    destruct (Ascii.eqb (digit_char d) "-") eqn:Ec; [|reflexivity].
    apply Ascii.eqb_eq in Ec.
    pose proof (digit_char_is_digit d Hd) as Hdg. rewrite Ec in Hdg. discriminate.
Qed.

Context {F : Type} {N : Num F}.

Lemma to_double_unsigned (neg : bool) (s : string) :
  to_double (N := N) ((if neg then "-" else "") ++ s)%string
  = (let '(ip, ni, s2) := read_digits s 0%N 0%nat in
     let '(m, nd, s3) :=
       match s2 with
       | String c t => if Ascii.eqb c "."%char then read_digits t ip ni else (ip, ni, s2)
       | EmptyString => (ip, ni, s2)
       end in
     match nd, s3 with
     | O, _ => None
     | _, EmptyString => of_decimal neg m (nd - ni)
     | _, String _ _ => None
     end)
  \/ (neg = false /\ exists t, s = String "-"%char t).
Proof.
  destruct neg.
  - left. reflexivity.
  - cbn [append]. destruct s as [|c t]; [left; reflexivity|].
    destruct (Ascii.eqb c "-") eqn:E.
    + right. split; [reflexivity|]. apply Ascii.eqb_eq in E. subst. now exists t.
    + left. unfold to_double. now rewrite E.
Qed.

Lemma append_empty (s : string) : (s ++ "")%string = s.
Proof. induction s as [|c t IH]; cbn; [|rewrite IH]; reflexivity. Qed.

Lemma numeral_value (neg : bool) (ip : list nat) (frac : option (list nat)) :
  numeral ip frac ->
  to_double (N := N) (numeral_text neg ip frac)
  = of_decimal neg (digits_value 0 (ip ++ fraction_digits frac))
               (List.length (fraction_digits frac)).
Proof.
  intros (Hip & Hfp & Hne). unfold numeral_text.
  set (tail := match frac with
               | Some fp => String "."%char (digits_text fp)
               | None => EmptyString
               end).
  assert (Htail : stops tail) by (subst tail; destruct frac; cbn; auto).
  destruct (to_double_unsigned neg (digits_text ip ++ tail)) as [E|(_ & t & E)].
  - rewrite E. rewrite (read_digits_run ip 0%N 0%nat tail Hip Htail).
    cbn [Nat.add]. subst tail. destruct frac as [fp|]; cbn [fraction_digits] in *.
    + cbn [Ascii.eqb Bool.eqb]. cbv beta iota.
      rewrite <- (append_empty (digits_text fp)).
      rewrite (read_digits_run fp _ _ EmptyString Hfp I).
      rewrite digits_value_app.
      replace (List.length ip + List.length fp - List.length ip)%nat
        with (List.length fp) by lia.
      destruct (List.length ip + List.length fp)%nat eqn:El; [|reflexivity].
      exfalso. apply Hne.
      destruct ip; [destruct fp; [reflexivity|discriminate]|discriminate].
    + rewrite app_nil_r in *. rewrite Nat.sub_diag.
      destruct ip as [|d ip]; [now elim Hne|reflexivity].
  - exfalso.
    destruct (digits_text_stops ip tail Hip Htail _ _ E) as [Ec|(Hnil & Et)].
    + discriminate.
    + subst tail. destruct frac; [inversion Et|discriminate].
Qed.

Lemma numeral_only (s : string) (v : F) :
  to_double (N := N) s = Some v ->
  exists neg ip frac,
    numeral ip frac /\ s = numeral_text neg ip frac /\
    of_decimal neg (digits_value 0 (ip ++ fraction_digits frac))
               (List.length (fraction_digits frac)) = Some v.
Proof.
  unfold to_double.
  set (sign := match s with
               | String c t => if Ascii.eqb c "-"%char then (true, t) else (false, s)
               | EmptyString => (false, s)
               end).
  assert (Hs : s = ((if fst sign then "-" else "") ++ snd sign)%string).
  { subst sign. destruct s as [|c t]; [reflexivity|].
    destruct (Ascii.eqb c "-") eqn:E; [|reflexivity].
    apply Ascii.eqb_eq in E. now subst. }
  destruct sign as [neg s1]. cbn [fst snd] in Hs.
  destruct (read_digits_inv s1 0%N 0%nat) as (ip & rest & Hs1 & Hip & Hrest & Hread).
  rewrite Hread. cbn [Nat.add].
  destruct rest as [|c t].
  - intros H. destruct (List.length ip) eqn:El; [discriminate|].
    exists neg, ip, None. cbn [fraction_digits List.length].
    rewrite app_nil_r. rewrite Nat.sub_diag in H.
    split; [|split; [|exact H]].
    + repeat split; [assumption|constructor|]. rewrite app_nil_r.
      intros ->. discriminate.
    + unfold numeral_text. now rewrite Hs, Hs1.
  - destruct (Ascii.eqb c ".") eqn:Ec.
    + apply Ascii.eqb_eq in Ec. subst c.
      destruct (read_digits_inv t (digits_value 0 ip) (List.length ip))
        as (fp & rest2 & Ht & Hfp & Hrest2 & Hread2).
      rewrite Hread2. intros H.
      destruct (List.length ip + List.length fp)%nat eqn:El; [discriminate|].
      destruct rest2; [|discriminate].
      exists neg, ip, (Some fp). cbn [fraction_digits].
      rewrite digits_value_app.
      replace (S n - List.length ip)%nat with (List.length fp) in H by lia.
      split; [|split; [|exact H]].
      * repeat split; try assumption. intros E.
        apply (f_equal (@List.length nat)) in E. rewrite length_app in E.
        cbn in E. lia.
      * unfold numeral_text. rewrite Hs, Hs1, Ht. now rewrite append_empty.
    + intros H. destruct (List.length ip); discriminate.
Qed.

(** A character that is no digit and occurs in a run of digits followed by
    [tail] occurs in [tail]. *)
Lemma digits_text_split (ds : list nat) (tail : string) (c : ascii) :
  Forall (fun d => (d < 10)%nat) ds -> is_digit c = false ->
  forall t1 t2, (digits_text ds ++ tail)%string = (t1 ++ String c t2)%string ->
                exists t1', tail = (t1' ++ String c t2)%string.
Proof.
  intros Hds Hc. induction Hds as [|d ds Hd Hds IH]; intros t1 t2 E.
  - now exists t1.
  - cbn [digits_text map string_of_list_ascii append] in E.
    fold (digits_text ds) in E. destruct t1 as [|a t1]; cbn [append] in E.
    + inversion E; subst. rewrite (digit_char_is_digit d Hd) in Hc. discriminate.
    + inversion E; subst. now apply (IH t1 t2).
Qed.

Lemma digits_text_pure (ds : list nat) (c : ascii) (t1 t2 : string) :
  Forall (fun d => (d < 10)%nat) ds -> is_digit c = false ->
  digits_text ds <> (t1 ++ String c t2)%string.
Proof.
  intros Hds Hc E. rewrite <- (append_empty (digits_text ds)) in E.
  destruct (digits_text_split ds EmptyString c Hds Hc t1 t2 E) as [t E'].
  destruct t; discriminate.
Qed.

(** No numeral has a minus sign after its first character. *)
Lemma numeral_inner_minus (neg : bool) (ip : list nat) (frac : option (list nat))
      (t1 t2 : string) :
  numeral ip frac ->
  numeral_text neg ip frac = (t1 ++ String "-"%char t2)%string ->
  t1 = EmptyString.
Proof.
  intros (Hip & Hfp & _) E. unfold numeral_text in E.
  assert (body : forall u,
             (digits_text ip ++ match frac with
                                | Some fp => String "."%char (digits_text fp)
                                | None => EmptyString
                                end)%string <> (u ++ String "-"%char t2)%string).
  { intros u Eu.
    destruct (digits_text_split ip _ "-"%char Hip eq_refl u t2 Eu) as [u' Eu'].
    destruct frac as [fp|]; [|destruct u'; discriminate].
    destruct u' as [|a u']; [discriminate|]. cbn [append] in Eu'.
    inversion Eu'. eapply digits_text_pure; [exact Hfp| |eassumption]. reflexivity. }
  destruct neg.
  - destruct t1 as [|a t1]; [reflexivity|]. cbn [append] in E. inversion E.
    now elim (body t1).
  - cbn [append] in E. now elim (body t1).
Qed.

(** No numeral has two points. *)
Lemma numeral_one_point (neg : bool) (ip : list nat) (frac : option (list nat))
      (t1 t2 t3 : string) :
  numeral ip frac ->
  numeral_text neg ip frac
  <> (t1 ++ String "."%char (t2 ++ String "."%char t3))%string.
Proof.
  intros (Hip & Hfp & _) E. unfold numeral_text in E.
  assert (body : forall u,
             (digits_text ip ++ match frac with
                                | Some fp => String "."%char (digits_text fp)
                                | None => EmptyString
                                end)%string
             <> (u ++ String "."%char (t2 ++ String "."%char t3))%string).
  { intros u Eu.
    destruct (digits_text_split ip _ "."%char Hip eq_refl u _ Eu) as [u' Eu'].
    destruct frac as [fp|]; [|destruct u'; discriminate].
    cbn [fraction_digits] in Hfp.
    destruct u' as [|a u']; cbn [append] in Eu'; inversion Eu'.
    - eapply (digits_text_pure fp "."%char t2 t3); [exact Hfp|reflexivity|assumption].
    - eapply (digits_text_pure fp "."%char (u' ++ String "."%char t2) t3);
        [exact Hfp|reflexivity|].
      rewrite H1. clear. induction u' as [|b u' IH]; cbn; [|rewrite IH]; reflexivity. }
  destruct neg.
  - destruct t1 as [|a t1]; cbn [append] in E; [discriminate|]. inversion E.
    now elim (body t1).
  - cbn [append] in E. now elim (body t1).
Qed.

End Numerals.

(** C4 (as amended).  The normalisation of a cell removes every character
    that is not a digit, a decimal point or a minus sign (a minus sign is
    kept wherever it stands) and converts what is left.  When that is not a
    decimal numeral the result is 0.0.  When it is one, the result is what
    the string-to-number conversion of the library gives for it, and 0.0
    if the conversion fails or gives NaN.  The result is never NaN, whatever
    the conversion; nothing guards it against infinity. *)
Theorem normalize_cell_total
    (conversion : bool -> N -> nat -> option B64.float) (s : string) :
  list_ascii_of_string (str_replace s)
  = filter numeric_char (list_ascii_of_string s)
  /\ B64.is_nan (normalize_cell (N := binary64_with conversion) s) = false
  /\ ((forall neg ip frac,
          numeral ip frac -> str_replace s <> numeral_text neg ip frac) ->
      normalize_cell (N := binary64_with conversion) s = B64.zero)
  /\ (forall neg ip frac,
         numeral ip frac -> str_replace s = numeral_text neg ip frac ->
         normalize_cell (N := binary64_with conversion) s
         = match conversion neg (digits_value 0 (ip ++ fraction_digits frac))
                            (List.length (fraction_digits frac)) with
           | Some v => if B64.is_nan v then B64.zero else v
           | None => B64.zero
           end)
  /\ (forall neg ip frac sign,
         numeral ip frac -> str_replace s = numeral_text neg ip frac ->
         conversion neg (digits_value 0 (ip ++ fraction_digits frac))
                    (List.length (fraction_digits frac))
         = Some (S754_infinity sign) ->
         normalize_cell (N := binary64_with conversion) s = S754_infinity sign).
Proof.
  split; [apply str_replace_chars|].
  assert (Hnum : forall neg ip frac,
             numeral ip frac -> str_replace s = numeral_text neg ip frac ->
             normalize_cell (N := binary64_with conversion) s
             = match conversion neg (digits_value 0 (ip ++ fraction_digits frac))
                                (List.length (fraction_digits frac)) with
               | Some v => if B64.is_nan v then B64.zero else v
               | None => B64.zero
               end).
  { intros neg ip frac Hn E. rewrite normalize_cell_cases, E.
    rewrite (numeral_value (N := binary64_with conversion) neg ip frac Hn).
    cbn [of_decimal binary64_with]. now destruct (conversion _ _ _). }
  split; [|split; [|split; [exact Hnum|]]].
  - rewrite normalize_cell_cases.
    destruct (to_double (N := binary64_with conversion) (str_replace s)) as [v|];
      cbn [fisnan fzero fnan binary64_with B64.is_nan]; [|reflexivity].
    destruct (B64.is_nan v) eqn:E; [reflexivity|exact E].
  - intros H. rewrite normalize_cell_cases.
    destruct (to_double (N := binary64_with conversion) (str_replace s))
      as [v|] eqn:E; [|reflexivity].
    destruct (numeral_only _ _ E) as (neg & ip & frac & Hn & Hs & _).
    now elim (H neg ip frac Hn).
  - intros neg ip frac sign Hn E Hc. rewrite (Hnum neg ip frac Hn E), Hc.
    reflexivity.
Qed.

Lemma normalize_cell_total_witness :
  normalize_cell (N := binary64_with B64.decimal) "5-" = B64.zero /\
  normalize_cell (N := binary64_with B64.decimal) "$1,200.00" = B64.of_Z 1200.
Proof.
  split.
  - apply (normalize_cell_total B64.decimal "5-").
    intros neg ip frac Hn E.
    pose proof (numeral_inner_minus neg ip frac "5" "" Hn (eq_sym E)).
    discriminate.
  - destruct (normalize_cell_total B64.decimal "$1,200.00") as (_ & _ & _ & H & _).
    rewrite (H false [1; 2; 0; 0]%nat (Some [0; 0]%nat)).
    + reflexivity.
    + repeat split; [repeat constructor; lia ..|discriminate].
    + reflexivity.
Defined.

(** X15.  A cell whose kept characters have a minus sign after the first
    one, as a date or a range does, is normalised to zero. *)
Theorem inner_minus_gives_zero (s t1 t2 : string) :
  str_replace s = (t1 ++ String "-"%char t2)%string -> t1 <> EmptyString ->
  normalize_cell (N := binary64) s = B64.zero /\
  normalize_cell (N := rational) s = Exact.Fin (Q2Qc 0).
Proof.
  intros E Ht.
  assert (H : forall (F : Type) (N : Num F), to_double (N := N) (str_replace s) = None).
  { intros F N. destruct (to_double (str_replace s)) as [v|] eqn:Ev; [|reflexivity].
    destruct (numeral_only _ _ Ev) as (neg & ip & frac & Hn & Hs & _).
    rewrite E in Hs. symmetry in Hs.
    now elim Ht; apply (numeral_inner_minus neg ip frac t1 t2 Hn Hs). }
  split; rewrite normalize_cell_cases, H; reflexivity.
Qed.

Lemma inner_minus_gives_zero_witness :
  normalize_cell (N := binary64) "2023-01" = B64.zero /\
  normalize_cell (N := rational) "2023-01" = Exact.Fin (Q2Qc 0).
Proof.
  apply (inner_minus_gives_zero "2023-01" "2023" "01"); [reflexivity|discriminate].
Defined.

(** X16.  A cell whose kept characters have two points, as an amount with
    points between the thousands has, is normalised to zero. *)
Theorem two_points_give_zero (s t1 t2 t3 : string) :
  str_replace s = (t1 ++ String "."%char (t2 ++ String "."%char t3))%string ->
  normalize_cell (N := binary64) s = B64.zero /\
  normalize_cell (N := rational) s = Exact.Fin (Q2Qc 0).
Proof.
  intros E.
  assert (H : forall (F : Type) (N : Num F), to_double (N := N) (str_replace s) = None).
  { intros F N. destruct (to_double (str_replace s)) as [v|] eqn:Ev; [|reflexivity].
    destruct (numeral_only _ _ Ev) as (neg & ip & frac & Hn & Hs & _).
    rewrite E in Hs. symmetry in Hs.
    now elim (numeral_one_point neg ip frac t1 t2 t3 Hn). }
  split; rewrite normalize_cell_cases, H; reflexivity.
Qed.

Lemma two_points_give_zero_witness :
  normalize_cell (N := binary64) "1.234.567 EUR" = B64.zero /\
  normalize_cell (N := rational) "1.234.567 EUR" = Exact.Fin (Q2Qc 0).
Proof.
  apply (two_points_give_zero "1.234.567 EUR" "1" "234" "567"). reflexivity.
Defined.

(** ** The upload *)

Section UploadFacts.

Context {F : Type} {N : Num F}.

Variable Text : Type.
Variable decode : Encoding -> list Byte.byte -> Text + string.
Variable read_csv : Text -> CsvFrame + string.

(** The position is at the start or at the end throughout the loop, so an
    attempt sees the whole upload or nothing. *)
Lemma read_with_encodings_whole (todo : list Encoding) :
  forall (file : FileStorage) (last_error e : option string) (df : CsvFrame),
    rejects_empty decode read_csv ->
    position file = 0%nat \/ (List.length (content file) <= position file)%nat ->
    read_with_encodings decode read_csv todo file last_error = (Some df, e) ->
    exists encoding text,
      In encoding todo /\
      decode encoding (content file) = inl text /\ read_csv text = inl df.
Proof.
  induction todo as [|encoding todo IH]; intros file last_error e df Hempty Hpos H.
  - discriminate.
  - cbn [read_with_encodings read] in H.
    destruct (decode encoding (skipn (position file) (content file)))
      as [text|msg] eqn:Ed.
    + destruct (read_csv text) as [d|msg] eqn:Er.
      * inversion H; subst. destruct Hpos as [Hp|Hp].
        -- rewrite Hp in Ed. cbn [skipn] in Ed.
           exists encoding, text. repeat split; [now left|assumption..].
        -- rewrite skipn_all2 in Ed by assumption.
           destruct (Hempty encoding text Ed) as [msg Hmsg]. congruence.
      * match type of H with
        | read_with_encodings _ _ _ ?f _ = _ =>
            destruct (IH f (Some msg) e df Hempty) as (enc & t & Hin & Hd & Hr);
            [left; reflexivity|exact H|]
        end.
        exists enc, t. repeat split; [now right|assumption..].
    + match type of H with
      | read_with_encodings _ _ _ ?f _ = _ =>
          destruct (IH f (Some msg) e df Hempty) as (enc & t & Hin & Hd & Hr);
          [right; cbn [position content]; lia|exact H|]
      end.
      exists enc, t. repeat split; [now right|assumption..].
Qed.

Lemma substring_all (s : string) : substring 0 (String.length s) s = s.
Proof. induction s as [|c t IH]; cbn; [|rewrite IH]; reflexivity. Qed.

Lemma substring_split (s : string) :
  forall k, (k <= String.length s)%nat ->
            s = (substring 0 k s ++ substring k (String.length s - k) s)%string.
Proof.
  induction s as [|c t IH]; intros k Hk.
  - cbn in Hk. replace k with 0%nat by lia. reflexivity.
  - destruct k as [|k].
    + cbn [String.length Nat.sub substring append]. now rewrite substring_all.
    + cbn [String.length Nat.sub substring append]. cbn in Hk.
      rewrite <- (IH k) by lia. reflexivity.
Qed.

Lemma endswith_stem (s suffix : string) :
  endswith s suffix = true -> exists stem, s = (stem ++ suffix)%string.
Proof.
  unfold endswith. intros H. apply andb_prop in H. destruct H as [Hle He].
  apply Nat.leb_le in Hle. apply String.eqb_eq in He.
  exists (substring 0 (String.length s - String.length suffix) s).
  rewrite <- He at 2.
  rewrite (substring_split s (String.length s - String.length suffix)) at 1 by lia.
  do 2 f_equal. lia.
Qed.

Lemma stem_endswith (stem suffix : string) :
  endswith (stem ++ suffix) suffix = true.
Proof.
  unfold endswith.
  assert (Hlen : String.length (stem ++ suffix)
                 = (String.length stem + String.length suffix)%nat)
    by (induction stem as [|c t IH]; cbn; [|rewrite IH]; reflexivity).
  rewrite Hlen. apply andb_true_intro. split; [apply Nat.leb_le; lia|].
  replace (String.length stem + String.length suffix - String.length suffix)%nat
    with (String.length stem) by lia.
  apply String.eqb_eq. clear Hlen.
  induction stem as [|c t IH]; [apply substring_all|exact IH].
Qed.

(** What the request handling answers once the upload has been parsed. *)
Lemma request_parsed (files : list (string * FileStorage)) (file : FileStorage)
      (stem : string) (df : CsvFrame) (e : option string) :
  files_get files "file" = Some file ->
  filename file = (stem ++ ".csv")%string ->
  read_with_encodings decode read_csv encodings file None = (Some df, e) ->
  generate_schedule_request (N := N) decode read_csv files = generate_schedule df.
Proof.
  intros Hf Hn Hr. unfold generate_schedule_request. rewrite Hf, Hn.
  rewrite stem_endswith, Hr. cbn [negb].
  destruct (String.eqb (stem ++ ".csv") "") eqn:E; [|reflexivity].
  apply String.eqb_eq in E. destruct stem; discriminate.
Qed.

(** An answer that is no status 400 answer is the answer to a parsed
    upload. *)
Lemma request_inv (files : list (string * FileStorage)) (r : Response F) :
  generate_schedule_request (N := N) decode read_csv files = r ->
  (exists msg, r = Error 400 msg) \/
  exists file stem df e,
    files_get files "file" = Some file /\
    filename file = (stem ++ ".csv")%string /\
    read_with_encodings decode read_csv encodings file None = (Some df, e) /\
    generate_schedule df = r.
Proof.
  intros <-. unfold generate_schedule_request.
  destruct (files_get files "file") as [file|] eqn:Hf; [|left; now eexists].
  destruct (String.eqb (filename file) ""); [left; now eexists|].
  destruct (endswith (filename file) ".csv") eqn:He; cbn [negb];
    [|left; now eexists].
  destruct (endswith_stem _ _ He) as [stem Hstem].
  destruct (read_with_encodings decode read_csv encodings file None)
    as [[df|] e] eqn:Hr; [|left; now eexists].
  right. now exists file, stem, df, e.
Qed.

(** X17.  A schedule is only ever the answer to an upload sent under the
    key [file], with a name ending in [.csv], whose whole content decodes
    under one of the three encodings into text that parses into a table with
    the four required columns and at least one row; and the schedule is the
    one computed from that table. *)
Theorem schedule_needs_csv_upload (files : list (string * FileStorage))
        (s : Schedule F) :
  fresh files -> rejects_empty decode read_csv ->
  generate_schedule_request (N := N) decode read_csv files = Ok s ->
  exists file stem encoding text df,
    files_get files "file" = Some file /\
    filename file = (stem ++ ".csv")%string /\
    In encoding encodings /\
    decode encoding (content file) = inl text /\
    read_csv text = inl df /\
    missing_columns df = [] /\ rows df <> [] /\
    generate_schedule (N := N) df = Ok s.
Proof.
  intros Hfresh Hempty H.
  destruct (request_inv files _ H) as [[msg Hm]|(file & stem & df & e & Hf & Hn & Hr & Hg)];
    [discriminate|].
  destruct (read_with_encodings_whole encodings file None e df Hempty
              (or_introl (Hfresh file Hf)) Hr) as (encoding & text & Hin & Hd & Hc).
  destruct (generate_schedule_ok_columns df s Hg) as [Hcols Hb].
  exists file, stem, encoding, text, df. repeat split; try assumption.
  intros Hrows. apply (build_schedule_nonempty _ s Hb). now rewrite Hrows.
Qed.

(** X18.  An upload that is no UTF-8 text is read as cp1251: the position
    is left at the end by the failed attempt, the [utf-8-sig] attempt then
    reads nothing, fails in the parser and rewinds, and the third attempt
    reads the whole content. *)
Theorem cp1251_upload_is_served (files : list (string * FileStorage))
        (file : FileStorage) (stem msg : string) (empty text : Text)
        (df : CsvFrame) :
  files_get files "file" = Some file ->
  position file = 0%nat ->
  filename file = (stem ++ ".csv")%string ->
  decode utf_8 (content file) = inr msg ->
  decode utf_8_sig [] = inl empty ->
  rejects_empty decode read_csv ->
  decode cp1251 (content file) = inl text ->
  read_csv text = inl df ->
  generate_schedule_request (N := N) decode read_csv files = generate_schedule df.
Proof.
  intros Hf Hp Hn H8 Hsig Hempty H1251 Hcsv.
  destruct (Hempty utf_8_sig empty Hsig) as [e He].
  apply (request_parsed files file stem df (Some e) Hf Hn).
  unfold encodings. cbn [read_with_encodings read seek position content filename].
  rewrite Hp. cbn [skipn Nat.max]. rewrite H8.
  rewrite skipn_all2 by (cbn [position content]; lia).
  rewrite Hsig, He. cbn [skipn]. now rewrite H1251, Hcsv.
Qed.

End UploadFacts.

Lemma sample_rejects_empty : rejects_empty sample_decode sample_read_csv.
Proof.
  intros encoding text H. destruct encoding; cbn in H; inversion H; subst;
    now eexists.
Defined.

Lemma schedule_needs_csv_upload_witness :
  exists s,
    generate_schedule_request (N := binary64) sample_decode sample_read_csv
                              [("file"%string, sample_upload)] = Ok s /\
    exists file stem encoding text df,
      files_get [("file"%string, sample_upload)] "file" = Some file /\
      filename file = (stem ++ ".csv")%string /\
      In encoding encodings /\
      sample_decode encoding (content file) = inl text /\
      sample_read_csv text = inl df /\
      missing_columns df = [] /\ rows df <> [] /\
      generate_schedule (N := binary64) df = Ok s.
Proof.
  assert (E : {s | generate_schedule_request (N := binary64) sample_decode
                     sample_read_csv [("file"%string, sample_upload)] = Ok s})
    by (vm_compute; eexists; reflexivity).
  destruct E as [s E]. exists s. split; [exact E|].
  apply (schedule_needs_csv_upload (N := binary64) _ sample_decode sample_read_csv
           [("file"%string, sample_upload)] s);
    [|exact sample_rejects_empty|exact E].
  intros file H. cbn in H. inversion H. reflexivity.
Defined.

Lemma cp1251_upload_is_served_witness :
  generate_schedule_request (N := binary64) sample_decode sample_read_csv
                            [("file"%string, sample_upload)]
  = generate_schedule
      {| columns := required_columns;
         rows := [["January"; "2023-01-01"; "1000"; "400"]%string] |}.
Proof.
  apply (cp1251_upload_is_served (N := binary64) _ sample_decode sample_read_csv
           [("file"%string, sample_upload)] sample_upload "income"
           "invalid start byte" [] [Byte.xff; Byte.x31]);
    try reflexivity.
  exact sample_rejects_empty.
Defined.
